(** * The plug-flow-reactor residual kernels of Compare_Numpy_Cython_Numba

    A shallow embedding of the notebook's Python code: the parameter class
    [pfr], the residual kernels [model_pfr] (element-wise loop),
    [model_pfr_np] (numpy slices) and [model_pfr_np_no_share] (freshly
    allocated residual), the typed Cython kernel
    [Pfr_Cython.cython_model], and the benchmark set-up
    [solver_setup_base] and [setups_all].

    Python exceptions are an error type threaded through a small monad;
    numpy arrays are lists indexed the way Python indexes them; objects
    that the benchmark shares live in an explicit store.  The kernels are
    written once over an interface of scalar operations, in the operation
    order of the source, and the interface is instantiated with IEEE
    binary64 (what CPython and numpy compute with) and with exact
    rationals (the arithmetic the discretisation formulas are stated in). *)

From Stdlib Require Import ZArith QArith Qcanon Floats Lia.
From stdpp Require Import base option list.

Set Default Proof Using "Type".
Set Warnings "-register-all".
Local Open Scope Z_scope.

(** ** Python exceptions and the error monad *)

Inductive exn : Type :=
  | IndexError
  | ZeroDivisionError
  | OverflowError
  | ValueError
  | TypeError.

Definition result (T : Type) : Type := exn + T.

Definition raise {T} (e : exn) : result T := inl e.

#[export] Instance result_ret : MRet result := fun _ x => inr x.
#[export] Instance result_bind : MBind result := fun _ _ f m =>
  match m with
  | inl e => inl e
  | inr x => f x
  end.

(** ** Scalars

    The kernels never look inside a number: they add, subtract, multiply,
    negate and divide.  [fdiv] is the raw division; the division of two
    Python floats, which raises on a zero divisor, is [py_div] below. *)

Class Scalar (A : Type) : Type := {
  of_Q : Q -> A;                (* a decimal literal of the source *)
  of_int : Z -> result A;       (* int -> float, as in [float / int] *)
  fadd : A -> A -> A;
  fsub : A -> A -> A;
  fmul : A -> A -> A;
  fdiv : A -> A -> A;
  fneg : A -> A;
  feqb : A -> A -> bool;        (* Python's [==] *)
  fltb : A -> A -> bool;        (* Python's [<] *)
  is_finite : A -> bool;
}.

Declare Scope py_scope.
Delimit Scope py_scope with py.
Infix "+" := fadd : py_scope.
Infix "-" := fsub : py_scope.
Infix "*" := fmul : py_scope.
Notation "- x" := (fneg x) : py_scope.

Section PyFloat.
Context {A : Type} `{Scalar A}.

Definition f0 : A := of_Q 0.
Definition f1 : A := of_Q 1.
Definition f2 : A := of_Q 2.

(** [float.__truediv__]: a zero divisor raises. *)
Definition py_div (x y : A) : result A :=
  if feqb y f0 then raise ZeroDivisionError else mret (fdiv x y).

(** [float / int]: the int is converted first. *)
Definition py_div_int (x : A) (n : Z) : result A :=
  d ← of_int n; py_div x d.

(** [int * float]: the int is converted first. *)
Definition py_int_mul (n : Z) (x : A) : result A :=
  c ← of_int n; mret (c * x)%py.

(** [x ** 2] on a Python float: the square, and [OverflowError] when a
    finite [x] has a square out of range.  The square is taken correctly
    rounded, which is the product [x * x]; CPython calls the C library's
    [pow], which may return a neighbouring float.  The statements about
    the kernels take the value of [h ** 2] as [py_pow2] returns it and
    depend on it through [coefficients] only. *)
Definition py_pow2 (x : A) : result A :=
  let r := (x * x)%py in
  if is_finite x && negb (is_finite r)
  then raise OverflowError else mret r.
End PyFloat.

(** ** numpy arrays

    A one-dimensional array is the list of its elements.  Indices are
    Python ints: a negative index counts from the end, and an index that
    is still out of range raises [IndexError]. *)

Section NumpyArray.
Context {A : Type}.

Definition size (a : list A) : Z := Z.of_nat (length a).

Definition wrap_index (a : list A) (i : Z) : Z :=
  if i <? 0 then i + size a else i.

Definition getitem (a : list A) (i : Z) : result A :=
  let j := wrap_index a i in
  if (0 <=? j) && (j <? size a) then
    match a !! Z.to_nat j with
    | Some x => mret x
    | None => raise IndexError
    end
  else raise IndexError.

Definition setitem (a : list A) (i : Z) (x : A) : result (list A) :=
  let j := wrap_index a i in
  if (0 <=? j) && (j <? size a) then mret (<[Z.to_nat j := x]> a)
  else raise IndexError.

(** A slice bound is clipped to the array, never an error. *)
Definition clip_bound (a : list A) (i : Z) : nat :=
  Z.to_nat (if i <? 0 then Z.max (i + size a) 0 else Z.min i (size a)).

(** [a[start:stop]]; [stop = None] is the open end of [a[start:]]. *)
Definition slice (a : list A) (start : Z) (stop : option Z) : list A :=
  let s := clip_bound a start in
  let e := from_option (clip_bound a) (length a) stop in
  take (e - s)%nat (drop s a).

(** Element-wise operation of two arrays, with numpy's broadcasting of
    a one-element operand; other shape mismatches raise [ValueError]. *)
Definition broadcast (op : A -> A -> A) (a b : list A) : result (list A) :=
  if decide (length a = length b) then mret (zip_with op a b)
  else match a, b with
       | [x], _ => mret (op x <$> b)
       | _, [y] => mret ((fun x => op x y) <$> a)
       | _, _ => raise ValueError
       end.

(** [a[start:stop] = v]. *)
Definition setslice (a : list A) (start : Z) (stop : option Z) (v : list A)
  : result (list A) :=
  let s := clip_bound a start in
  let e := from_option (clip_bound a) (length a) stop in
  let m := (e - s)%nat in
  if decide (length v = m) then mret (take s a ++ v ++ drop (s + m) a)
  else match v with
       | [x] => mret (take s a ++ replicate m x ++ drop (s + m) a)
       | _ => raise ValueError
       end.

(** [np.arange(a, b)] over ints. *)
Definition arange (a b : Z) : list Z :=
  (fun k : nat => a + Z.of_nat k) <$> seq 0 (Z.to_nat (b - a)).

(** [for i in l: s = body(i, s)], stopping at the first exception. *)
Fixpoint for_ {S : Type} (l : list Z) (body : Z -> S -> result S) (s : S)
  : result S :=
  match l with
  | [] => mret s
  | i :: l' => s' ← body i s; for_ l' body s'
  end.
End NumpyArray.

(** ** The parameter class [pfr] *)

Record pfr {A : Type} : Type := Build_pfr {
  D : A; vz : A; k : A; Cf : A; z0 : A; zf : A; N : Z; h : A
}.
Arguments pfr : clear implicits.
Arguments Build_pfr {A}.

Section Model.
Context {A : Type} `{Scalar A}.
Local Open Scope py_scope.

(** [pfr.get_h]: reads [zf], [z0] and [N] only. *)
Definition get_h (self : pfr A) : result A :=
  py_div_int (zf self - z0 self) (N self).

(** [pfr.__init__]: the seven assignments, then [self.h = self.get_h()].
    The attribute [h] does not exist before that last assignment; the
    record carries [f0] there, which [get_h] never reads.  The argument
    defaults to 20: [pfr()] is [pfr_init 20]. *)
Definition pfr_init (n : Z) : result (pfr A) :=
  let self := Build_pfr f1 f1 f1 f1 f0 f1 n f0 in
  hv ← get_h self;
  mret (Build_pfr (D self) (vz self) (k self) (Cf self) (z0 self) (zf self)
                  (N self) hv).

(** *** The element-wise kernel *)

Definition model_pfr (t : A) (y yp : list A) (par : pfr A) (res : list A)
  : result (list A * Z) :=
  let N := N par in
  let '(D, vz, k, Cf, h) := (D par, vz par, k par, Cf par, h par) in
  let dCi := yp in
  let Ci := y in
  aux1 ← py_div D (vz * h);
  inv ← py_div f1 (f1 + aux1);
  Ci0 ← getitem Ci 0;
  let C0 := inv * (aux1 * Ci0 + Cf) in
  CNp1 ← getitem Ci (N - 1);
  hh ← py_pow2 h;
  aux2 ← py_div D hh;
  h2 ← py_int_mul 2 h;
  aux3 ← py_div vz h2;
  Ci1 ← getitem Ci 1;
  Ci0 ← getitem Ci 0;
  dCi0 ← getitem dCi 0;
  res ← setitem res 0
          (aux2 * (Ci1 - f2 * Ci0 + C0) - aux3 * (Ci1 - C0) + k * Ci0 - dCi0);
  res ← for_ (arange 1 (N - 1)) (fun i res =>
          Cip ← getitem Ci (i + 1);
          Cii ← getitem Ci i;
          Cim ← getitem Ci (i - 1);
          let tt1 := aux2 * (Cip - f2 * Cii + Cim) in
          let tt2 := - aux3 * (Cip - Cim) + k * Cii in
          dCii ← getitem dCi i;
          setitem res i (tt1 + tt2 - dCii)) res;
  CiN1 ← getitem Ci (N - 1);
  CiN2 ← getitem Ci (N - 2);
  dCiN1 ← getitem dCi (N - 1);
  res ← setitem res (N - 1)
          (aux2 * (CNp1 - f2 * CiN1 + CiN2) - aux3 * (CNp1 - CiN2)
           + k * CiN1 - dCiN1);
  mret (res, 0%Z).

(** *** The numpy-slice kernel *)

Definition model_pfr_np (t : A) (y yp : list A) (par : pfr A) (res : list A)
  : result (list A * Z) :=
  let N := N par in
  let '(D, vz, k, Cf, h) := (D par, vz par, k par, Cf par, h par) in
  let dCi := yp in
  let Ci := y in
  aux1 ← py_div D (vz * h);
  inv ← py_div f1 (f1 + aux1);
  Ci0 ← getitem Ci 0;
  let C0 := inv * (aux1 * Ci0 + Cf) in
  CNp1 ← getitem Ci (N - 1);
  hh ← py_pow2 h;
  aux2 ← py_div D hh;
  h2 ← py_int_mul 2 h;
  aux3 ← py_div vz h2;
  Ci1 ← getitem Ci 1;
  Ci0 ← getitem Ci 0;
  dCi0 ← getitem dCi 0;
  res ← setitem res 0
          (aux2 * (Ci1 - f2 * Ci0 + C0) - aux3 * (Ci1 - C0) + k * Ci0 - dCi0);
  s1 ← broadcast fsub (slice Ci 2 None) (fmul f2 <$> slice Ci 1 (Some (-1)%Z));
  s2 ← broadcast fadd s1 (slice Ci 0 (Some (-2)%Z));
  let tt1 := fmul aux2 <$> s2 in
  d ← broadcast fsub (slice Ci 2 None) (slice Ci 0 (Some (-2)%Z));
  tt2 ← broadcast fadd (fmul (- aux3) <$> d) (fmul k <$> slice Ci 1 (Some (-1)%Z));
  r ← broadcast fadd tt1 tt2;
  r ← broadcast fsub r (slice dCi 1 (Some (-1)%Z));
  res ← setslice res 1 (Some (-1)%Z) r;
  CiN1 ← getitem Ci (N - 1);
  CiN2 ← getitem Ci (N - 2);
  dCiN1 ← getitem dCi (N - 1);
  res ← setitem res (N - 1)
          (aux2 * (CNp1 - f2 * CiN1 + CiN2) - aux3 * (CNp1 - CiN2)
           + k * CiN1 - dCiN1);
  mret (res, 0%Z).

(** *** The kernel that allocates its residual

    [np.empty(y.size)] returns unspecified contents: [uninit] is
    whatever the allocated memory holds, cell by cell. *)

Definition np_empty (uninit : nat -> A) (n : Z) : list A :=
  uninit <$> seq 0 (Z.to_nat n).

Definition model_pfr_np_no_share (uninit : nat -> A)
    (t : A) (y yp : list A) (par : pfr A) : result (list A * Z) :=
  let res := np_empty uninit (size y) in
  let N := N par in
  let '(D, vz, k, Cf, h) := (D par, vz par, k par, Cf par, h par) in
  let dCi := yp in
  let Ci := y in
  aux1 ← py_div D (vz * h);
  inv ← py_div f1 (f1 + aux1);
  Ci0 ← getitem Ci 0;
  let C0 := inv * (aux1 * Ci0 + Cf) in
  CNp1 ← getitem Ci (N - 1);
  hh ← py_pow2 h;
  aux2 ← py_div D hh;
  h2 ← py_int_mul 2 h;
  aux3 ← py_div vz h2;
  Ci1 ← getitem Ci 1;
  Ci0 ← getitem Ci 0;
  dCi0 ← getitem dCi 0;
  res ← setitem res 0
          (aux2 * (Ci1 - f2 * Ci0 + C0) - aux3 * (Ci1 - C0) + k * Ci0 - dCi0);
  s1 ← broadcast fsub (slice Ci 2 None) (fmul f2 <$> slice Ci 1 (Some (-1)%Z));
  s2 ← broadcast fadd s1 (slice Ci 0 (Some (-2)%Z));
  let tt1 := fmul aux2 <$> s2 in
  d ← broadcast fsub (slice Ci 2 None) (slice Ci 0 (Some (-2)%Z));
  tt2 ← broadcast fadd (fmul (- aux3) <$> d) (fmul k <$> slice Ci 1 (Some (-1)%Z));
  r ← broadcast fadd tt1 tt2;
  r ← broadcast fsub r (slice dCi 1 (Some (-1)%Z));
  res ← setslice res 1 (Some (-1)%Z) r;
  CiN1 ← getitem Ci (N - 1);
  CiN2 ← getitem Ci (N - 2);
  dCiN1 ← getitem dCi (N - 1);
  res ← setitem res (N - 1)
          (aux2 * (CNp1 - f2 * CiN1 + CiN2) - aux3 * (CNp1 - CiN2)
           + k * CiN1 - dCiN1);
  mret (res, 0%Z).

(** *** Closed form of the residual

    What the kernels compute, row by row: the coefficient arithmetic in
    source order, then one expression per row.  These are the terms the
    kernels are proved against; they keep the source's operation order. *)

Definition coefficients (par : pfr A) : result (A * A * A * A) :=
  aux1 ← py_div (D par) (vz par * h par);
  inv ← py_div f1 (f1 + aux1);
  hh ← py_pow2 (h par);
  aux2 ← py_div (D par) hh;
  h2 ← py_int_mul 2 (h par);
  aux3 ← py_div (vz par) h2;
  mret (aux1, inv, aux2, aux3).

Definition at0 (a : list A) (i : nat) : A := default f0 (a !! i).

Definition residual_row (c : A * A * A * A) (par : pfr A) (y yp : list A)
    (i : nat) : A :=
  let '(aux1, inv, aux2, aux3) := c in
  let n := length y in
  let C0 := inv * (aux1 * at0 y 0 + Cf par) in
  let CNp1 := at0 y (n - 1) in
  if decide (i = 0%nat) then
    aux2 * (at0 y 1 - f2 * at0 y 0 + C0) - aux3 * (at0 y 1 - C0)
    + k par * at0 y 0 - at0 yp 0
  else if decide (i = (n - 1)%nat) then
    aux2 * (CNp1 - f2 * at0 y (n - 1) + at0 y (n - 2))
    - aux3 * (CNp1 - at0 y (n - 2)) + k par * at0 y (n - 1) - at0 yp (n - 1)
  else
    aux2 * (at0 y (i + 1) - f2 * at0 y i + at0 y (i - 1))
    + (- aux3 * (at0 y (i + 1) - at0 y (i - 1)) + k par * at0 y i)
    - at0 yp i.

(** The effect of a loop of writes [res[i] = g(i)] on the buffer. *)
Definition write_rows (g : nat -> A) (res : list A) (l : list nat) : list A :=
  foldl (fun r i => <[i := g i]> r) res l.

Definition residual_rows (c : A * A * A * A) (par : pfr A) (y yp : list A)
  : list A :=
  residual_row c par y yp <$> seq 0 (length y).

(** *** The inlet ghost node

    The two assignments [aux1 = ...] and [C0 = ...] that open every
    kernel, as a function of the first state entry. *)
Definition inlet_ghost (C1 Cf D vz h : A) : result A :=
  aux1 ← py_div D (vz * h);
  inv ← py_div f1 (f1 + aux1);
  mret (inv * (aux1 * C1 + Cf)).

End Model.

(** *** Operations on a [pfr] object

    The class defines [__init__] and [get_h] and nothing else: no
    property, no setter, no [__setattr__].  So an assignment [par.x = v]
    stores [v] in that attribute and has no other effect, and [get_h]
    reads without writing. *)

Inductive attr : Type :=
  | attr_D | attr_vz | attr_k | attr_Cf | attr_z0 | attr_zf | attr_h.

Inductive pfr_op (A : Type) : Type :=
  | Assign (a : attr) (x : A)     (* par.a = x *)
  | AssignN (n : Z)               (* par.N = n *)
  | CallGetH.                     (* par.get_h() *)
Arguments Assign {A}.
Arguments AssignN {A}.
Arguments CallGetH {A}.

Section PfrOps.
Context {A : Type} `{Scalar A}.

Definition setattr (self : pfr A) (a : attr) (x : A) : pfr A :=
  match a with
  | attr_D => Build_pfr x (vz self) (k self) (Cf self) (z0 self) (zf self) (N self) (h self)
  | attr_vz => Build_pfr (D self) x (k self) (Cf self) (z0 self) (zf self) (N self) (h self)
  | attr_k => Build_pfr (D self) (vz self) x (Cf self) (z0 self) (zf self) (N self) (h self)
  | attr_Cf => Build_pfr (D self) (vz self) (k self) x (z0 self) (zf self) (N self) (h self)
  | attr_z0 => Build_pfr (D self) (vz self) (k self) (Cf self) x (zf self) (N self) (h self)
  | attr_zf => Build_pfr (D self) (vz self) (k self) (Cf self) (z0 self) x (N self) (h self)
  | attr_h => Build_pfr (D self) (vz self) (k self) (Cf self) (z0 self) (zf self) (N self) x
  end.

Definition setattr_N (self : pfr A) (n : Z) : pfr A :=
  Build_pfr (D self) (vz self) (k self) (Cf self) (z0 self) (zf self) n (h self).

Definition pfr_apply (op : pfr_op A) (self : pfr A) : result (pfr A) :=
  match op with
  | Assign a x => mret (setattr self a x)
  | AssignN n => mret (setattr_N self n)
  | CallGetH => _ ← get_h self; mret self
  end.

Fixpoint pfr_apply_all (ops : list (pfr_op A)) (self : pfr A) : result (pfr A) :=
  match ops with
  | [] => mret self
  | op :: ops' => self' ← pfr_apply op self; pfr_apply_all ops' self'
  end.

(** The operations that write one of the attributes [h] is derived from,
    or [h] itself. *)
Definition writes_geometry (op : pfr_op A) : bool :=
  match op with
  | Assign (attr_z0 | attr_zf | attr_h) _ => true
  | AssignN _ => true
  | _ => false
  end.

(** The stored [h] is what [get_h] would compute now. *)
Definition h_consistent (self : pfr A) : Prop := get_h self = inr (h self).
End PfrOps.

(** *** The index expressions of [model_pfr]

    Every subscript the loop kernel evaluates, per array, in source
    order: the boundary rows, then the three-point stencil of each
    loop index. *)
Section Subscripts.
Context {A : Type}.

Definition subscripts_y (n : Z) : list Z :=
[0; n - 1; 1; 0] ++ (i ← arange 1 (n - 1); [i + 1; i; i - 1])
++ [n - 1; n - 2].
Definition subscripts_yp (n : Z) : list Z :=
[0] ++ arange 1 (n - 1) ++ [n - 1].
Definition subscripts_res (n : Z) : list Z :=
[0] ++ arange 1 (n - 1) ++ [n - 1].

Definition in_bounds (a : list A) (i : Z) : Prop :=
0 <= i < size a.
End Subscripts.

(** ** The two arithmetics *)

(** IEEE binary64, the arithmetic of CPython floats and [np.float64]. *)
Module Binary64.
Definition int_to_float (n : Z) : result float :=
  let x := SF2Prim (binary_normalize prec emax n 0 false) in
  if PrimFloat.is_infinity x then raise OverflowError else mret x.

Definition lit (q : Q) : float :=
  PrimFloat.div (SF2Prim (binary_normalize prec emax (Qnum q) 0 false))
                (SF2Prim (binary_normalize prec emax (Zpos (Qden q)) 0 false)).

#[export] Instance scalar : Scalar float := {|
  of_Q := lit;
  of_int := int_to_float;
  fadd := PrimFloat.add;
  fsub := PrimFloat.sub;
  fmul := PrimFloat.mul;
  fdiv := PrimFloat.div;
  fneg := PrimFloat.opp;
  feqb := PrimFloat.eqb;
  fltb := PrimFloat.ltb;
  is_finite := PrimFloat.is_finite;
|}.
End Binary64.

(** Exact rationals: no rounding, no overflow. *)
Module Exact.
#[export] Instance scalar : Scalar Qc := {|
  of_Q := Q2Qc;
  of_int := fun n => mret (Q2Qc (inject_Z n));
  fadd := Qcplus;
  fsub := Qcminus;
  fmul := Qcmult;
  fdiv := Qcdiv;
  fneg := Qcopp;
  feqb := Qc_eq_bool;
  fltb := fun x y => bool_decide (x < y)%Qc;
  is_finite := fun _ => true;
|}.
End Exact.


(** ** The benchmark set-up

    [setups_all] builds objects that the timed runs then share or do not
    share, so objects live in a store and values refer to them by
    location.  Allocation appends to the store: a new object never
    reuses the location of an old one. *)

Abbreviation loc := nat (only parsing).

Inductive pfr_class : Type := cls_pfr | cls_Pfr_Cython | cls_Numba_PFR.

Inductive value (A : Type) : Type :=
  | VNone
  | VFloat (x : A)
  | VRef (l : loc)
  | VTuple (vs : list (value A)).
Arguments VNone {A}.
Arguments VFloat {A}.
Arguments VRef {A}.
Arguments VTuple {A}.

Inductive object (A : Type) : Type :=
  | OParams (c : pfr_class) (p : pfr A)  (* a parameter object *)
  | OArray (a : list A)                  (* a numpy array *)
  | OList (vs : list (value A)).         (* a Python list *)
Arguments OParams {A}.
Arguments OArray {A}.
Arguments OList {A}.

Abbreviation store A := (list (object A)) (only parsing).

(** A computation reads and extends the store, or raises. *)
Definition prog (A T : Type) : Type := store A -> result (T * store A).

#[export] Instance prog_ret {A} : MRet (prog A) := fun _ x σ => inr (x, σ).
#[export] Instance prog_bind {A} : MBind (prog A) := fun _ _ f m σ =>
  match m σ with
  | inl e => inl e
  | inr (x, σ') => f x σ'
  end.

Inductive variant : Type :=
  | run_py | run_np | run_cy_naive | run_cy_typed | run_numba
  | run_np_no_share.

Section Benchmark.
Context {A : Type} `{Scalar A}.

Definition lift {T} (r : result T) : prog A T := fun σ =>
  match r with
  | inl e => inl e
  | inr x => inr (x, σ)
  end.

Definition alloc (o : object A) : prog A loc := fun σ =>
  inr (length σ, σ ++ [o]).

Definition load (l : loc) : prog A (object A) := fun σ =>
  match σ !! l with
  | Some o => inr (o, σ)
  | None => inl TypeError
  end.

Definition update (l : loc) (o : object A) : prog A unit := fun σ =>
  inr (tt, <[l := o]> σ).

(** [pfr(N)]. *)
Definition new_pfr (n : Z) : prog A loc :=
  p ← lift (pfr_init n); alloc (OParams cls_pfr p).

(** [Pfr_Cython(N)]: the same attributes in C fields; [N] is a C [int],
    and the conversion of a Python int out of its range raises. *)
Definition new_Pfr_Cython (n : Z) : prog A loc :=
  if (- 2 ^ 31 <=? n) && (n <? 2 ^ 31) then
    p ← lift (pfr_init n); alloc (OParams cls_Pfr_Cython p)
  else lift (raise OverflowError).

(** [Numba_PFR(N)], the class [jitclass(spec)(pfr)]: the body of [pfr]
    with [N] an [int32] field.  What numba does with an [N] out of that
    range is numba's; it is taken to raise. *)
Definition new_Numba_PFR (n : Z) : prog A loc :=
  if (- 2 ^ 31 <=? n) && (n <? 2 ^ 31) then
    p ← lift (pfr_init n); alloc (OParams cls_Numba_PFR p)
  else lift (raise OverflowError).

(** [np.zeros(n)]. *)
Definition np_zeros (n : Z) : prog A loc :=
  if n <? 0 then lift (raise ValueError)
  else alloc (OArray (replicate (Z.to_nat n) f0)).

(** [x[i]] on a tuple or on a list object. *)
Definition subscript (x : value A) (i : Z) : prog A (value A) :=
  match x with
  | VTuple vs => lift (getitem vs i)
  | VRef l =>
      o ← load l;
      match o with
      | OList vs => lift (getitem vs i)
      | _ => lift (raise TypeError)
      end
  | _ => lift (raise TypeError)
  end.

(** [x[i] = v] on a list object. *)
Definition subscript_assign (x : value A) (i : Z) (v : value A) : prog A unit :=
  match x with
  | VRef l =>
      o ← load l;
      match o with
      | OList vs =>
          vs' ← lift (setitem vs i v);
          update l (OList vs')
      | _ => lift (raise TypeError)
      end
  | _ => lift (raise TypeError)
  end.

(** [par.N] of a parameter object. *)
Definition attr_N (l : loc) : prog A Z :=
  o ← load l;
  match o with
  | OParams _ p => mret (N p)
  | _ => lift (raise TypeError)
  end.

Definition solver_setup_base (n : Z) : prog A (value A) :=
  par ← new_pfr n;
  t0 ← alloc (OArray [of_Q 5]);
  parN ← attr_N par;
  y0 ← np_zeros parN;
  let yp0 := VNone in
  let atol := of_Q (1 # 100000000) in
  let rtol := of_Q (1 # 1000000) in
  l ← alloc (OList [VRef t0; VRef y0; yp0; VRef par; VFloat rtol; VFloat atol]);
  mret (VRef l).

Definition setups_all (n : Z) : prog A (value A) :=
  base_args ← solver_setup_base n;
  pr_Cy ← new_Pfr_Cython n;
  cy_args ← solver_setup_base n;
  _ ← subscript_assign cy_args 3 VNone;
  numba_pfr ← new_Numba_PFR n;
  numba_args ← solver_setup_base n;
  _ ← subscript_assign numba_args 3 (VRef numba_pfr);
  mret (VTuple [base_args; VTuple [VRef pr_Cy; cy_args]; numba_args]).

(** The objects one call of [solver_setup_base] adds at location [l0]
    onwards, and those of one call of [setups_all]; [p] is the parameter
    record [pfr(N)] evaluates to. *)
Definition base_objects (l0 : loc) (p : pfr A) (par : value A)
  : list (object A) :=
  [ OParams cls_pfr p;
    OArray [of_Q 5];
    OArray (replicate (Z.to_nat (N p)) f0);
    OList [VRef (l0 + 1)%nat; VRef (l0 + 2)%nat; VNone; par;
           VFloat (of_Q (1 # 1000000)); VFloat (of_Q (1 # 100000000))] ].

Definition setup_objects (l0 : loc) (p : pfr A) : list (object A) :=
  base_objects l0 p (VRef l0)
  ++ [OParams cls_Pfr_Cython p]
  ++ base_objects (l0 + 5)%nat p VNone
  ++ [OParams cls_Numba_PFR p]
  ++ base_objects (l0 + 10)%nat p (VRef (l0 + 9)%nat).

Definition setup_value (l0 : loc) : value A :=
  VTuple [VRef (l0 + 3)%nat;
          VTuple [VRef (l0 + 4)%nat; VRef (l0 + 8)%nat];
          VRef (l0 + 13)%nat].

(** The part of the set-up a timed run hands to the solver:
    [opts_setup[0]] for [run_py], [run_np], [run_cy_naive] and
    [run_np_no_share]; [opts_setup[1]], whose two components
    [run_cy_typed] uses; [opts_setup[2]] for [run_numba]. *)
Definition variant_setup (v : variant) (opts_setup : value A)
  : prog A (value A) :=
  match v with
  | run_py | run_np | run_cy_naive | run_np_no_share => subscript opts_setup 0
  | run_cy_typed => subscript opts_setup 1
  | run_numba => subscript opts_setup 2
  end.

(** The slot of [setups_all]'s result that a variant is written to use. *)
Definition variant_slot (v : variant) : nat :=
  match v with
  | run_py | run_np | run_cy_naive | run_np_no_share => 0
  | run_cy_typed => 1
  | run_numba => 2
  end.

(** The locations of the objects a value leads to, through tuples and
    list objects, to the given depth. *)
Fixpoint reach (depth : nat) (σ : store A) (v : value A) : list loc :=
  match depth with
  | O => []
  | S d =>
      match v with
      | VRef l =>
          l :: match σ !! l with
               | Some (OList vs) => vs ≫= reach d σ
               | _ => []
               end
      | VTuple vs => vs ≫= reach d σ
      | _ => []
      end
  end.

Definition disjoint_locs (a b : list loc) : Prop :=
  forall l, l ∈ a -> l ∈ b -> False.

(** The parameter object a variant's set-up carries: entry 3 of the
    solver-argument list, or, for [run_cy_typed], the [Pfr_Cython] object
    whose method is the callback; and the initial state [y0], entry 1 of
    the argument list. *)
Definition args_par (σ : store A) (l : loc) : option (pfr A) :=
  match σ !! l with
  | Some (OList [_; _; _; VRef par; _; _]) =>
      match σ !! par with
      | Some (OParams _ p) => Some p
      | _ => None
      end
  | _ => None
  end.

Definition setup_par (σ : store A) (setup : value A) : option (pfr A) :=
  match setup with
  | VRef l => args_par σ l
  | VTuple [VRef pr; _] =>
      match σ !! pr with
      | Some (OParams _ p) => Some p
      | _ => None
      end
  | _ => None
  end.

Definition args_y0 (σ : store A) (l : loc) : option (list A) :=
  match σ !! l with
  | Some (OList [_; VRef y0; _; _; _; _]) =>
      match σ !! y0 with
      | Some (OArray a) => Some a
      | _ => None
      end
  | _ => None
  end.

Definition setup_y0 (σ : store A) (setup : value A) : option (list A) :=
  match setup with
  | VRef l => args_y0 σ l
  | VTuple [_; VRef l] => args_y0 σ l
  | _ => None
  end.
End Benchmark.

(** Entry 3 of an argument list, the parameter object the solver hands to
    the callback, and the class of a parameter object. *)
Definition par_entry {A} (σ : list (object A)) (l : nat) : option (value A) :=
  match σ !! l with
  | Some (OList vs) => vs !! 3%nat
  | _ => None
  end.

Definition class_of {A} (σ : list (object A)) (l : nat) : option pfr_class :=
  match σ !! l with
  | Some (OParams c _) => Some c
  | _ => None
  end.

(** ** The right-hand side of the residual

    Every row of the residual ends in [... - dCi[i]]: what is subtracted
    from is the row of the right-hand side [f(C)] of [dC/dt = f(C)], in the
    operation order of the kernels. *)
Section RightHandSide.
Context {A : Type} `{Scalar A}.
Local Open Scope py_scope.

Definition rhs_row (c : A * A * A * A) (par : pfr A) (y : list A) (i : nat)
  : A :=
  let '(aux1, inv, aux2, aux3) := c in
  let n := length y in
  let C0 := inv * (aux1 * at0 y 0 + Cf par) in
  let CNp1 := at0 y (n - 1) in
  if decide (i = 0%nat) then
    aux2 * (at0 y 1 - f2 * at0 y 0 + C0) - aux3 * (at0 y 1 - C0)
    + k par * at0 y 0
  else if decide (i = (n - 1)%nat) then
    aux2 * (CNp1 - f2 * at0 y (n - 1) + at0 y (n - 2))
    - aux3 * (CNp1 - at0 y (n - 2)) + k par * at0 y (n - 1)
  else
    aux2 * (at0 y (i + 1) - f2 * at0 y i + at0 y (i - 1))
    + (- aux3 * (at0 y (i + 1) - at0 y (i - 1)) + k par * at0 y i).

Definition rhs_rows (c : A * A * A * A) (par : pfr A) (y : list A) : list A :=
  rhs_row c par y <$> seq 0 (length y).
End RightHandSide.

(** ** The row expression, as stated and as computed

    [stated_row] is the residual of one row in the order the
    specification writes it, [aux2*(C[i+1] - 2*C[i] + C[i-1])
    - aux3*(C[i+1] - C[i-1]) + k*C[i] - dC[i]]; [computed_row] is the same
    terms in the order the loop body adds them, [tt1 + tt2 - dCi[i]] with
    [tt2 = -aux3*(..) + k*Ci[i]].  [Cm], [Ci], [Cp] are the
    concentrations at nodes [i-1], [i], [i+1]. *)

Section RowExpressions.
Context {A : Type} `{Scalar A}.
Local Open Scope py_scope.

Definition stated_row (aux2 aux3 k Cm Ci Cp dC : A) : A :=
  aux2 * (Cp - f2 * Ci + Cm) - aux3 * (Cp - Cm) + k * Ci - dC.

Definition computed_row (aux2 aux3 k Cm Ci Cp dC : A) : A :=
  aux2 * (Cp - f2 * Ci + Cm) + (- aux3 * (Cp - Cm) + k * Ci) - dC.
End RowExpressions.

(** ** The typed Cython kernel

    [Pfr_Cython.cython_model] hands its typed memoryviews and the C fields
    of the object to [cythonized_base_model_calculations]; both are compiled
    with [boundscheck(False)], [wraparound(False)] and [cdivision(True)].
    A subscript is then an unchecked C access: outside the buffer, a
    negative index included, its behaviour is undefined, which is [None]
    here.  Division is C's and raises nothing, [2 * h] converts the C int
    2 to the double [2.0], and [h**2], a power with the constant exponent
    2, is taken as the product [h * h], without an overflow check.  C
    doubles are taken to be evaluated as the source writes them, operation
    by operation. *)

Section CythonTyped.
Context {A : Type} `{Scalar A}.
Local Open Scope py_scope.

Definition c_getitem (a : list A) (i : Z) : option A :=
  if (0 <=? i) && (i <? size a) then a !! Z.to_nat i else None.

Definition c_setitem (a : list A) (i : Z) (x : A) : option (list A) :=
  if (0 <=? i) && (i <? size a) then Some (<[Z.to_nat i := x]> a) else None.

(** [for i in range(a, b)] over a C int, with [l] the values of [i]. *)
Fixpoint c_for {S : Type} (l : list Z) (body : Z -> S -> option S) (s : S)
  : option S :=
  match l with
  | [] => Some s
  | i :: l' => s' ← body i s; c_for l' body s'
  end.

Definition cythonized_base_model_calculations (res y yp : list A) (N : Z)
    (D vz k Cf h : A) : option (list A) :=
  let dCi := yp in
  let Ci := y in
  let aux1 := fdiv D (vz * h) in
  Ci0 ← c_getitem Ci 0;
  let C0 := fdiv f1 (f1 + aux1) * (aux1 * Ci0 + Cf) in
  CNp1 ← c_getitem Ci (N - 1);
  let aux2 := fdiv D (h * h) in
  let aux3 := fdiv vz (f2 * h) in
  Ci1 ← c_getitem Ci 1;
  Ci0 ← c_getitem Ci 0;
  dCi0 ← c_getitem dCi 0;
  res ← c_setitem res 0
          (aux2 * (Ci1 - f2 * Ci0 + C0) - aux3 * (Ci1 - C0) + k * Ci0 - dCi0);
  res ← c_for (arange 1 (N - 1)) (fun i res =>
          Cip ← c_getitem Ci (i + 1);
          Cii ← c_getitem Ci i;
          Cim ← c_getitem Ci (i - 1);
          let tt1 := aux2 * (Cip - f2 * Cii + Cim) in
          let tt2 := - aux3 * (Cip - Cim) + k * Cii in
          dCii ← c_getitem dCi i;
          c_setitem res i (tt1 + tt2 - dCii)) res;
  CiN1 ← c_getitem Ci (N - 1);
  CiN2 ← c_getitem Ci (N - 2);
  dCiN1 ← c_getitem dCi (N - 1);
  c_setitem res (N - 1)
    (aux2 * (CNp1 - f2 * CiN1 + CiN2) - aux3 * (CNp1 - CiN2)
     + k * CiN1 - dCiN1).

(** [Pfr_Cython.cython_model]: the kernel on the object's own fields,
    then [return res, 0]. *)
Definition cython_model (self : pfr A) (t : A) (y yp res : list A)
  : option (list A * Z) :=
  res ← cythonized_base_model_calculations res y yp (N self) (D self)
          (vz self) (k self) (Cf self) (h self);
  Some (res, 0%Z).

(** The coefficients as the C code computes them. *)
Definition c_coefficients (par : pfr A) : A * A * A * A :=
  let aux1 := fdiv (D par) (vz par * h par) in
  (aux1, fdiv f1 (f1 + aux1), fdiv (D par) (h par * h par),
   fdiv (vz par) (f2 * h par)).
End CythonTyped.

(** ** The discretisation as the specification states it

    The residual formula of the specification, over exact rationals, with
    nodes numbered 1..N and the two ghost nodes 0 and N+1.  This is the
    reference the kernel is compared with; it follows the specification's
    formulas, not the source. *)
Module Spec.
Local Open Scope Qc_scope.

Definition two : Qc := Q2Qc 2.

Definition aux1 (par : pfr Qc) : Qc := D par / (vz par * h par).
Definition aux2 (par : pfr Qc) : Qc := D par / h par ^ 2.
Definition aux3 (par : pfr Qc) : Qc := vz par / (two * h par).

Definition inlet_ghost (C1 : Qc) (par : pfr Qc) : Qc :=
  (aux1 par * C1 + Cf par) / (1 + aux1 par).

Definition outlet_ghost (CN : Qc) : Qc := CN.

(** Entry [j] of a vector, numbered from 1. *)
Definition entry (v : list Qc) (j : nat) : Qc := default 0 (v !! (j - 1)%nat).

(** Node [j] of the grid: an interior node, or one of the ghost nodes. *)
Definition node (par : pfr Qc) (C : list Qc) (j : nat) : Qc :=
  if decide (j = 0%nat) then inlet_ghost (entry C 1) par
  else if decide (j = S (length C)) then outlet_ghost (entry C (length C))
  else entry C j.

Definition residual (par : pfr Qc) (C dC : list Qc) (i : nat) : Qc :=
  let c := node par C in
  aux2 par * (c (i + 1)%nat - two * c i + c (i - 1)%nat)
  - aux3 par * (c (i + 1)%nat - c (i - 1)%nat)
  + k par * c i - entry dC i.
End Spec.

(** * Proofs *)

(** ** Indexing lemmas *)

Section ArrayFacts.
Context {A : Type}.
Implicit Types (a v : list A) (i : Z).

Lemma getitem_Some a i x :
  0 <= i -> a !! Z.to_nat i = Some x -> getitem a i = inr x.
Proof.
  intros Hi Hx. unfold getitem, wrap_index, size.
  apply lookup_lt_Some in Hx as Hlt.
  destruct (Z.ltb_spec i 0); [lia|].
  destruct (Z.leb_spec 0 i); [|lia].
  destruct (Z.ltb_spec i (Z.of_nat (length a))); [|lia].
  simpl. by rewrite Hx.
Qed.

Lemma setitem_inr a i x :
  0 <= i < size a -> setitem a i x = inr (<[Z.to_nat i := x]> a).
Proof.
  intros Hi. unfold setitem, wrap_index.
  destruct (Z.ltb_spec i 0); [lia|].
  destruct (Z.leb_spec 0 i); [|lia].
  destruct (Z.ltb_spec i (size a)); [|lia]. done.
Qed.

Lemma slice_from a (s : nat) :
  (s <= length a)%nat -> slice a (Z.of_nat s) None = drop s a.
Proof.
  intros Hs. unfold slice, clip_bound, size. simpl.
  destruct (Z.ltb_spec (Z.of_nat s) 0); [lia|].
  replace (Z.to_nat (Z.min (Z.of_nat s) (Z.of_nat (length a)))) with s by lia.
  apply take_ge. rewrite length_drop. lia.
Qed.

Lemma slice_to_end a (s e : nat) :
  (0 < e)%nat -> (s + e <= length a)%nat ->
  slice a (Z.of_nat s) (Some (- Z.of_nat e)) = take (length a - e - s) (drop s a).
Proof.
  intros He Hs. unfold slice, clip_bound, size. simpl.
  destruct (Z.ltb_spec (Z.of_nat s) 0); [lia|].
  destruct (Z.ltb_spec (- Z.of_nat e) 0); [|lia].
  replace (Z.to_nat (Z.min (Z.of_nat s) (Z.of_nat (length a)))) with s by lia.
  replace (Z.to_nat (Z.max (- Z.of_nat e + Z.of_nat (length a)) 0))
    with (length a - e)%nat by lia.
  done.
Qed.

Lemma broadcast_zip (op : A -> A -> A) a v :
  length a = length v -> broadcast op a v = inr (zip_with op a v).
Proof. intros Hl. unfold broadcast. by rewrite decide_True. Qed.

Lemma arange_seq (s m : nat) :
  arange (Z.of_nat s) (Z.of_nat (s + m)) = Z.of_nat <$> seq s m.
Proof.
  unfold arange. replace (Z.to_nat (Z.of_nat (s + m) - Z.of_nat s)) with m by lia.
  apply list_eq. intros j. rewrite !list_lookup_fmap.
  destruct (decide (j < m)%nat) as [Hj|Hj].
  - rewrite !lookup_seq_lt by done. simpl. f_equal. lia.
  - rewrite !lookup_seq_ge by lia. done.
Qed.
End ArrayFacts.

(** ** The kernels in closed form *)

Section KernelFacts.
Context {A : Type} `{Scalar A}.
Local Open Scope py_scope.
Implicit Types (y yp res : list A) (par : pfr A).

Lemma getitem_at0 (a : list A) (i : Z) :
  (0 <= i < size a)%Z -> getitem a i = inr (at0 a (Z.to_nat i)).
Proof.
  intros Hi. unfold size in Hi.
  destruct (lookup_lt_is_Some_2 a (Z.to_nat i)) as [x Hx]; [lia|].
  unfold at0. rewrite Hx. simpl. apply getitem_Some; [lia|done].
Qed.

Lemma at0_lookup (a : list A) (i : nat) :
  (i < length a)%nat -> a !! i = Some (at0 a i).
Proof.
  intros Hi. destruct (lookup_lt_is_Some_2 a i Hi) as [x Hx].
  unfold at0. by rewrite Hx.
Qed.

Lemma write_rows_length g l res : length (write_rows g res l) = length res.
Proof.
  revert res. induction l as [|i l IH]; intros res; simpl; [done|].
  unfold write_rows in *. simpl. by rewrite IH, length_insert.
Qed.

Lemma write_rows_lookup g (s m : nat) res (j : nat) :
  write_rows g res (seq s m) !! j =
    if decide ((s <= j < s + m)%nat /\ (j < length res)%nat)
    then Some (g j) else res !! j.
Proof.
  revert s res. induction m as [|m IH]; intros s res.
  - simpl. rewrite decide_False by lia. done.
  - unfold write_rows in *. simpl. rewrite IH, length_insert.
    destruct (decide (j = s)) as [->|Hne].
    + rewrite decide_False by lia.
      destruct (decide (s < length res)%nat).
      * rewrite decide_True by lia. by apply list_lookup_insert_eq.
      * rewrite decide_False by lia. by rewrite list_insert_ge by lia.
    + rewrite list_lookup_insert_ne by done.
      repeat case_decide; try done; lia.
Qed.

Lemma for_write_rows (g : nat -> A) (body : Z -> list A -> result (list A))
    (s m : nat) res :
  (forall (i : nat) r, (s <= i < s + m)%nat -> length r = length res ->
      body (Z.of_nat i) r = inr (<[i := g i]> r)) ->
  for_ (Z.of_nat <$> seq s m) body res = inr (write_rows g res (seq s m)).
Proof.
  revert s res. induction m as [|m IH]; intros s res Hbody; [done|].
  simpl. rewrite Hbody by (done || lia). simpl.
  rewrite IH; [done|].
  intros i r Hi Hr. apply Hbody; [lia|]. by rewrite Hr, length_insert.
Qed.

Ltac arith_step :=
  match goal with
  | |- mbind _ ?m = _ => destruct m; [reflexivity|]; cbn [mbind result_bind]
  end.

Lemma model_pfr_closed t y yp par res (n : nat) :
  (2 <= n)%nat -> N par = Z.of_nat n ->
  length y = n -> length yp = n -> length res = n ->
  model_pfr t y yp par res
  = c ← coefficients par; mret (residual_rows c par y yp, 0%Z).
Proof.
  intros Hn HN Hy Hyp Hres.
  unfold model_pfr, coefficients. rewrite HN.
  rewrite !(getitem_at0 y 0), !(getitem_at0 y 1), !(getitem_at0 yp 0),
    !(getitem_at0 y (Z.of_nat n - 1)), !(getitem_at0 y (Z.of_nat n - 2)),
    !(getitem_at0 yp (Z.of_nat n - 1)) by (unfold size; lia).
  do 6 arith_step.
  rename a into aux1, a0 into inv, a2 into aux2, a4 into aux3.
  replace (Z.to_nat (Z.of_nat n - 1)) with (n - 1)%nat by lia.
  replace (Z.to_nat (Z.of_nat n - 2)) with (n - 2)%nat by lia.
  change (Z.to_nat 0) with 0%nat. change (Z.to_nat 1) with 1%nat.
  rewrite setitem_inr by (unfold size; lia). cbn [mbind result_bind].
  replace (arange 1 (Z.of_nat n - 1)) with (Z.of_nat <$> seq 1 (n - 2))
    by (rewrite <- arange_seq; f_equal; lia).
  rewrite (for_write_rows (fun i =>
     aux2 * (at0 y (i + 1) - f2 * at0 y i + at0 y (i - 1))
     + (- aux3 * (at0 y (i + 1) - at0 y (i - 1)) + k par * at0 y i)
     - at0 yp i)).
  2:{ intros i r Hi Hr. rewrite length_insert in Hr.
      rewrite !getitem_at0 by (unfold size; lia). cbn [mbind result_bind].
      rewrite setitem_inr by (unfold size; lia).
      replace (Z.to_nat (Z.of_nat i + 1)) with (i + 1)%nat by lia.
      replace (Z.to_nat (Z.of_nat i - 1)) with (i - 1)%nat by lia.
      by rewrite Nat2Z.id. }
  cbn [mbind result_bind].
  rewrite setitem_inr
    by (unfold size; rewrite write_rows_length, length_insert; lia).
  cbn [mbind result_bind mret result_ret]. do 2 f_equal.
  replace (Z.to_nat (Z.of_nat n - 1)) with (n - 1)%nat by lia.
  apply list_eq. intros j. unfold residual_rows.
  rewrite list_lookup_fmap.
  destruct (decide (j < n)%nat) as [Hj|Hj].
  - rewrite lookup_seq_lt by lia.
    cbn [fmap option_fmap option_map Nat.add].
    unfold residual_row. rewrite Hy.
    destruct (decide (j = (n - 1)%nat)) as [->|Hlast].
    + rewrite list_lookup_insert_eq
        by (rewrite write_rows_length, length_insert; lia).
      by rewrite decide_False by lia.
    + rewrite list_lookup_insert_ne by done.
      rewrite write_rows_lookup, length_insert.
      destruct (decide (j = 0%nat)) as [->|Hfirst].
      * rewrite decide_False by lia.
        by rewrite list_lookup_insert_eq by lia.
      * by rewrite decide_True by lia.
  - rewrite lookup_seq_ge by lia.
    apply lookup_ge_None_2.
    rewrite length_insert, write_rows_length, length_insert. lia.
Qed.


Lemma setslice_inr (a v : list A) (s e : Z) :
  (0 <= s)%Z -> (e < 0)%Z -> (s - e <= size a)%Z ->
  length v = Z.to_nat (size a + e - s) ->
  setslice a s (Some e) v
  = inr (take (Z.to_nat s) a ++ v ++ drop (Z.to_nat (size a + e)) a).
Proof.
  intros Hs He Hse Hv. unfold setslice, clip_bound, size in *. simpl.
  destruct (Z.ltb_spec s 0); [lia|].
  destruct (Z.ltb_spec e 0); [|lia].
  rewrite decide_True by lia.
  do 2 f_equal; [f_equal; lia|]. do 2 f_equal. lia.
Qed.

Lemma zip_with_length_eq {B C E} (f : B -> C -> E) l1 l2 (m : nat) :
  length l1 = m -> length l2 = m -> length (zip_with f l1 l2) = m.
Proof. intros H1 H2. rewrite length_zip_with. lia. Qed.

Lemma fmap_length_eq {B C} (f : B -> C) (l : list B) (m : nat) :
  length l = m -> length (f <$> l) = m.
Proof. intros Hl. by rewrite length_fmap. Qed.

Lemma take_drop_length_eq {B} (l : list B) (s m : nat) :
  (s + m <= length l)%nat -> length (take m (drop s l)) = m.
Proof. intros Hl. rewrite length_take, length_drop. lia. Qed.

Ltac len m :=
  try trans m;
  repeat first
    [ apply zip_with_length_eq | apply fmap_length_eq
    | apply take_drop_length_eq; lia
    | symmetry; apply zip_with_length_eq | symmetry; apply fmap_length_eq
    | symmetry; apply take_drop_length_eq; lia
    | rewrite length_take, ?length_insert; lia
    | rewrite length_drop; lia
    | reflexivity ].

Lemma model_pfr_np_closed t y yp par res (n : nat) :
  (2 <= n)%nat -> N par = Z.of_nat n ->
  length y = n -> length yp = n -> length res = n ->
  model_pfr_np t y yp par res
  = c ← coefficients par; mret (residual_rows c par y yp, 0%Z).
Proof.
  intros Hn HN Hy Hyp Hres.
  unfold model_pfr_np, coefficients. rewrite HN.
  rewrite !(getitem_at0 y 0), !(getitem_at0 y 1), !(getitem_at0 yp 0),
    !(getitem_at0 y (Z.of_nat n - 1)), !(getitem_at0 y (Z.of_nat n - 2)),
    !(getitem_at0 yp (Z.of_nat n - 1)) by (unfold size; lia).
  do 6 arith_step.
  rename a into aux1, a0 into inv, a2 into aux2, a4 into aux3.
  replace (Z.to_nat (Z.of_nat n - 1)) with (n - 1)%nat by lia.
  replace (Z.to_nat (Z.of_nat n - 2)) with (n - 2)%nat by lia.
  change (Z.to_nat 0) with 0%nat. change (Z.to_nat 1) with 1%nat.
  rewrite setitem_inr by (unfold size; lia). cbn [mbind result_bind].
  assert (slice y 2 None = drop 2 y) as ->
    by (apply (slice_from y 2); lia).
  assert (slice y 1 (Some (-1)%Z) = take (n - 2) (drop 1 y)) as ->
    by (etrans; [apply (slice_to_end y 1 1); lia|]; f_equal; lia).
  assert (slice y 0 (Some (-2)%Z) = take (n - 2) y) as ->
    by (etrans; [apply (slice_to_end y 0 2); lia|]; rewrite drop_0; f_equal; lia).
  assert (slice yp 1 (Some (-1)%Z) = take (n - 2) (drop 1 yp)) as ->
    by (etrans; [apply (slice_to_end yp 1 1); lia|]; f_equal; lia).
  repeat (rewrite broadcast_zip by len (n - 2)%nat; cbn [mbind result_bind]).
  match goal with
  | |- context [setslice _ _ _ ?v] =>
      set (mid := v);
      assert (length mid = (n - 2)%nat) as Hmid by (subst mid; len (n - 2)%nat)
  end.
  rewrite (setslice_inr _ _ 1 (-1))
    by (unfold size; rewrite ?length_insert; lia).
  cbn [mbind result_bind]. unfold size. rewrite length_insert, Hres.
  change (Z.to_nat 1) with 1%nat.
  replace (Z.to_nat (Z.of_nat n + -1)) with (n - 1)%nat by lia.
  match goal with
  | |- context [setitem ?r _ _] =>
      assert (length r = n) as Hlen
        by (rewrite !length_app, length_take, length_drop, length_insert; lia)
  end.
  rewrite setitem_inr by (unfold size; lia).
  cbn [mbind result_bind mret result_ret]. do 2 f_equal.
  replace (Z.to_nat (Z.of_nat n - 1)) with (n - 1)%nat by lia.
  apply list_eq. intros j. unfold residual_rows.
  rewrite list_lookup_fmap.
  destruct (decide (j < n)%nat) as [Hj|Hj].
  - rewrite lookup_seq_lt by lia.
    cbn [fmap option_fmap option_map Nat.add].
    unfold residual_row. rewrite Hy.
    destruct (decide (j = (n - 1)%nat)) as [->|Hlast].
    + rewrite list_lookup_insert_eq by lia.
      by rewrite decide_False by lia.
    + rewrite list_lookup_insert_ne by done.
      destruct (decide (j = 0%nat)) as [->|Hfirst].
      * rewrite lookup_app_l by (rewrite length_take, length_insert; lia).
        rewrite lookup_take_lt by lia.
        by rewrite list_lookup_insert_eq by lia.
      * rewrite lookup_app_r by (rewrite length_take, length_insert; lia).
        rewrite length_take, length_insert, Hres.
        replace (j - 1 `min` n)%nat with (j - 1)%nat by lia.
        rewrite lookup_app_l by lia. subst mid.
        rewrite !lookup_zip_with, !list_lookup_fmap, !lookup_zip_with,
          !list_lookup_fmap, !lookup_take_lt, !lookup_drop by lia.
        rewrite (at0_lookup y (2 + (j - 1))), (at0_lookup y (1 + (j - 1))),
          (at0_lookup y (j - 1)), (at0_lookup yp (1 + (j - 1))) by lia.
        replace (2 + (j - 1))%nat with (j + 1)%nat by lia.
        replace (1 + (j - 1))%nat with j by lia.
        done.
  - rewrite lookup_seq_ge by lia.
    apply lookup_ge_None_2. rewrite length_insert. lia.
Qed.

(** The ghost value [inlet_ghost] computes is the [C0] of the kernels'
    first row. *)
Lemma inlet_ghost_coefficients par (C1 aux1 inv aux2 aux3 : A) :
  coefficients par = inr (aux1, inv, aux2, aux3) ->
  inlet_ghost C1 (Cf par) (D par) (vz par) (h par)
  = inr (inv * (aux1 * C1 + Cf par)).
Proof.
  unfold coefficients, inlet_ghost.
  destruct (py_div (D par) (vz par * h par)) as [e|a1]; [done|].
  cbn [mbind result_bind].
  destruct (py_div f1 (f1 + a1)) as [e|i1]; [done|].
  cbn [mbind result_bind].
  destruct (py_pow2 (h par)); [done|]. cbn [mbind result_bind].
  destruct (py_div (D par) _); [done|]. cbn [mbind result_bind].
  destruct (py_int_mul 2 (h par)); [done|]. cbn [mbind result_bind].
  destruct (py_div (vz par) _); [done|].
  cbn [mbind result_bind mret result_ret]. by intros [= -> -> _ _].
Qed.

Lemma model_pfr_np_no_share_unfold uninit t y yp par :
  model_pfr_np_no_share uninit t y yp par
  = model_pfr_np t y yp par (np_empty uninit (size y)).
Proof. reflexivity. Qed.

Lemma np_empty_length (uninit : nat -> A) (n : nat) :
  length (np_empty uninit (Z.of_nat n)) = n.
Proof. unfold np_empty. by rewrite length_fmap, length_seq, Nat2Z.id. Qed.
End KernelFacts.

(** ** The kernels agree *)

Section Agreement.
Context {A : Type} `{Scalar A}.
Implicit Types (y yp res : list A) (par : pfr A).

Lemma sizes_nat y yp res par :
  (2 <= N par)%Z -> size y = N par -> size yp = N par -> size res = N par ->
  exists n : nat, (2 <= n)%nat /\ N par = Z.of_nat n /\
    length y = n /\ length yp = n /\ length res = n.
Proof.
  unfold size. intros Hn Hy Hyp Hres. exists (length y). lia.
Qed.

(** C1: for every N >= 2 and input vectors of length N, the element-wise
    loop kernel [model_pfr] and the bulk-array kernel [model_pfr_np]
    return the same result (the same residual vector and status, or the
    same exception) for the same t, parameters and inputs; this holds in
    every arithmetic, so in particular bit for bit in binary64, whether
    or not the inputs are finite. *)
Theorem model_pfr_np_agrees_with_loop t y yp par res :
  (2 <= N par)%Z -> size y = N par -> size yp = N par -> size res = N par ->
  model_pfr t y yp par res = model_pfr_np t y yp par res.
Proof.
  intros Hn Hy Hyp Hres.
  destruct (sizes_nat y yp res par) as (n & ? & ? & ? & ? & ?); [done..|].
  rewrite (model_pfr_closed t y yp par res n) by done.
  by rewrite (model_pfr_np_closed t y yp par res n) by done.
Qed.

(** C7: for every N >= 2 and identical inputs, the kernel that overwrites
    the caller's residual buffer ([model_pfr_np]) and the kernel that
    allocates its residual with [np.empty] ([model_pfr_np_no_share])
    return identical results, whatever the caller's buffer and the
    uninitialised allocation hold. *)
Theorem shared_and_isolated_agree (uninit : nat -> A) t y yp par res :
  (2 <= N par)%Z -> size y = N par -> size yp = N par -> size res = N par ->
  model_pfr_np t y yp par res = model_pfr_np_no_share uninit t y yp par.
Proof.
  intros Hn Hy Hyp Hres.
  destruct (sizes_nat y yp res par) as (n & ? & ? & Hly & ? & ?); [done..|].
  rewrite model_pfr_np_no_share_unfold.
  rewrite (model_pfr_np_closed t y yp par res n) by done.
  rewrite (model_pfr_np_closed t y yp par _ n); [done..|].
  unfold size. rewrite Hly. apply np_empty_length.
Qed.
End Agreement.

(** ** Bounds and status *)

Section Safety.
Context {A : Type} `{Scalar A}.
Implicit Types (y yp res : list A) (par : pfr A).

Lemma elem_of_arange (a b i : Z) : i ∈ arange a b <-> a <= i < b.
Proof.
  unfold arange. rewrite list_elem_of_fmap. split.
  - intros (j & -> & Hj). apply elem_of_seq in Hj. lia.
  - intros Hi. exists (Z.to_nat (i - a)). split; [lia|].
    apply elem_of_seq. lia.
Qed.

Lemma arange_empty (a b : Z) : b <= a -> arange a b = [].
Proof.
  intros Hab. unfold arange. by replace (Z.to_nat (b - a)) with 0%nat by lia.
Qed.

Lemma bind_inr_inv {T U} (m : result T) (f : T -> result U) (u : U) :
  m ≫= f = inr u -> exists x, m = inr x /\ f x = inr u.
Proof. destruct m as [e|x]; [done|]. intros Hf. by exists x. Qed.

Ltac bind_inv H :=
  repeat (apply bind_inr_inv in H as (? & _ & H)).

Lemma model_pfr_status t y yp par res R s :
  model_pfr t y yp par res = inr (R, s) -> s = 0.
Proof. unfold model_pfr. intros Hr. bind_inv Hr. by injection Hr. Qed.

Lemma model_pfr_np_status t y yp par res R s :
  model_pfr_np t y yp par res = inr (R, s) -> s = 0.
Proof. unfold model_pfr_np. intros Hr. bind_inv Hr. by injection Hr. Qed.

(** C6 (as amended): the kernels have no failure status.  Whenever
    [model_pfr] or [model_pfr_np] returns, for any input at all, finite or
    not, the status it returns is 0; a failed evaluation is a raised
    exception, never a nonzero status. *)
Theorem kernel_status_is_zero t y yp par res R s :
  model_pfr t y yp par res = inr (R, s)
  \/ model_pfr_np t y yp par res = inr (R, s) ->
  s = 0.
Proof.
  intros [Hr|Hr]; [by eapply model_pfr_status|by eapply model_pfr_np_status].
Qed.

(** C10: for every N >= 2 with [par.N = N] and [y], [yp], [res] of length
    N, every subscript [model_pfr] evaluates is in bounds; the evaluation
    raises nothing but what the coefficient arithmetic raises and
    otherwise returns a residual of length N; and for N = 2 the interior
    loop runs over the empty range, so that the result is the two boundary
    rows. *)
Theorem model_pfr_subscripts_in_bounds t y yp par res :
  2 <= N par -> size y = N par -> size yp = N par -> size res = N par ->
  Forall (in_bounds y) (subscripts_y (N par))
  /\ Forall (in_bounds yp) (subscripts_yp (N par))
  /\ Forall (in_bounds res) (subscripts_res (N par))
  /\ (forall e, model_pfr t y yp par res = inl e -> coefficients par = inl e)
  /\ (forall c, coefficients par = inr c ->
        exists R, model_pfr t y yp par res = inr (R, 0) /\ size R = N par)
  /\ (N par = 2 ->
        arange 1 (N par - 1) = []
        /\ forall c, coefficients par = inr c ->
             model_pfr t y yp par res
             = inr ([residual_row c par y yp 0; residual_row c par y yp 1], 0)).
Proof.
  intros Hn Hy Hyp Hres.
  destruct (sizes_nat y yp res par) as (n & ? & HN & Hly & ? & ?); [done..|].
  pose proof (model_pfr_closed t y yp par res n) as Hcl.
  repeat split.
  - unfold subscripts_y, in_bounds. rewrite !Forall_app. repeat split.
    + repeat constructor; lia.
    + apply Forall_forall. intros j Hj.
      apply list_elem_of_bind in Hj as (i & Hj & Hi).
      apply elem_of_arange in Hi.
      rewrite !elem_of_cons, elem_of_nil in Hj. lia.
    + repeat constructor; lia.
  - unfold subscripts_yp, in_bounds. rewrite !Forall_app. repeat split.
    + repeat constructor; lia.
    + apply Forall_forall. intros i Hi. apply elem_of_arange in Hi. lia.
    + repeat constructor; lia.
  - unfold subscripts_res, in_bounds. rewrite !Forall_app. repeat split.
    + repeat constructor; lia.
    + apply Forall_forall. intros i Hi. apply elem_of_arange in Hi. lia.
    + repeat constructor; lia.
  - intros e. rewrite Hcl by done.
    destruct (coefficients par); inversion 1; done.
  - intros c Hc. rewrite Hcl, Hc by done.
    eexists. split; [done|].
    unfold residual_rows, size. rewrite length_fmap, length_seq. lia.
  - by apply arange_empty; lia.
  - intros c Hc. rewrite Hcl, Hc by done.
    unfold residual_rows. by replace (length y) with 2%nat by lia.
Qed.
End Safety.


(** ** Binary64 facts used by the inlet closure *)

Section Binary64Facts.
Import Binary64.

Lemma digits2_pos_shift (m : positive) (n : nat) :
  Zpos (digits2_pos (Nat.iter n xO m)) = Zpos (digits2_pos m) + Z.of_nat n.
Proof.
  induction n as [|n IH]; [simpl; lia|].
  change (Nat.iter (S n) xO m) with (xO (Nat.iter n xO m)).
  cbn [digits2_pos]. rewrite Pos2Z.inj_succ, IH. lia.
Qed.

(** Rounding the product of [2^52 * 2^-52] with a canonical mantissa gives
    the mantissa back. *)
Lemma round_one_times (s : bool) (m : positive) (e : Z) :
  bounded prec emax m e = true ->
  binary_round_aux prec emax s (Zpos (4503599627370496 * m)) (-52 + e) loc_Exact
  = S754_finite s m e.
Proof.
  intros Hb. unfold bounded, canonical_mantissa in Hb.
  apply andb_prop in Hb as [Hc He]. apply Z.eqb_eq in Hc.
  change (4503599627370496 * m)%positive with (Nat.iter 52 xO m).
  unfold binary_round_aux, shr_fexp, Zdigits2.
  rewrite digits2_pos_shift.
  replace (Z.pos (digits2_pos m) + Z.of_nat 52 + (-52 + e))
    with (Z.pos (digits2_pos m) + e) by lia.
  rewrite Hc. replace (e - (-52 + e)) with 52 by lia.
  cbn -[fexp Z.sub Z.add Z.leb emax prec].
  replace (-52 + e + 52) with e by lia.
  rewrite Hc, Z.sub_diag. cbn [shr shr_m]. by rewrite He.
Qed.

Lemma float_mul_1_l (x : float) : (1 * x)%float = x.
Proof.
  apply Prim2SF_inj. rewrite FloatAxioms.mul_spec.
  change (Prim2SF 1) with (S754_finite false 4503599627370496 (-52)).
  pose proof (Prim2SF_valid x) as Hv.
  destruct (Prim2SF x) as [s|s| |s m e]; try reflexivity.
  unfold SF64mul, SFmul. cbn [xorb]. by apply round_one_times.
Qed.

Lemma float_pos_nonzero (x : float) :
  (0 <? x)%float = true -> (x =? 0)%float = false.
Proof.
  rewrite FloatAxioms.ltb_spec, FloatAxioms.eqb_spec.
  change (Prim2SF 0) with (S754_zero false).
  by destruct (Prim2SF x) as [s|[]| |[] m e].
Qed.

Lemma float_div_0_pos (z x : float) :
  (z =? 0)%float = true -> (0 <? x)%float = true ->
  exists s, Prim2SF (z / x)%float = S754_zero s.
Proof.
  rewrite FloatAxioms.ltb_spec, FloatAxioms.eqb_spec, FloatAxioms.div_spec.
  change (Prim2SF 0) with (S754_zero false).
  destruct (Prim2SF z) as [sz|[]| |[] mz ez]; try done;
    destruct (Prim2SF x) as [s|[]| |[] m e]; try done; intros _ _; by eexists.
Qed.

Lemma float_is_finite_cases (x : float) :
  PrimFloat.is_finite x = true ->
  (exists s, Prim2SF x = S754_zero s) \/ (exists s m e, Prim2SF x = S754_finite s m e).
Proof.
  unfold PrimFloat.is_finite, is_nan, is_infinity.
  rewrite !FloatAxioms.eqb_spec, FloatAxioms.abs_spec.
  change (Prim2SF infinity) with (S754_infinity false).
  destruct (Prim2SF x) as [s|[]| |s m e]; try done; eauto 6.
Qed.

Lemma float_zero_mul_finite (z x : float) (sz : bool) :
  Prim2SF z = S754_zero sz -> PrimFloat.is_finite x = true ->
  exists s, Prim2SF (z * x)%float = S754_zero s.
Proof.
  intros Hz Hx. rewrite FloatAxioms.mul_spec, Hz.
  destruct (float_is_finite_cases x Hx) as [[s ->]|(s & m & e & ->)];
    by eexists.
Qed.

Lemma float_zero_add (z x : float) (sz : bool) :
  Prim2SF z = S754_zero sz -> (x =? x)%float = true ->
  ((z + x) =? x)%float = true.
Proof.
  intros Hz. rewrite !FloatAxioms.eqb_spec, FloatAxioms.add_spec, Hz.
  destruct (Prim2SF x) as [[]|s| |s m e], sz; try done.
Qed.

Lemma float_one_plus_zero (z : float) (sz : bool) :
  Prim2SF z = S754_zero sz -> (1 + z)%float = 1%float.
Proof.
  intros Hz. apply Prim2SF_inj. rewrite FloatAxioms.add_spec, Hz.
  change (Prim2SF 1) with (S754_finite false 4503599627370496 (-52)).
  done.
Qed.
End Binary64Facts.

(** ** The inlet closure without diffusion *)

Section InletGhost.
Import Binary64.

Lemma binary64_literals :
  f0 = 0%float /\ f1 = 1%float /\ f2 = 2%float.
Proof. by vm_compute. Qed.

(** The decimal literals [5.0], [1e-6] and [1e-8] of the set-up denote
    the nearest binary64 values. *)
Lemma binary64_setup_literals :
  lit 5 = 5%float
  /\ lit (1 # 1000000) = 0x1.0c6f7a0b5ed8dp-20%float
  /\ lit (1 # 100000000) = 0x1.5798ee2308c3ap-27%float.
Proof. by vm_compute. Qed.

(** C3 (as amended): in binary64, with [D = 0], a finite first state entry
    [C1], a feed [Cf] that is not NaN, and [vz > 0], [h > 0] whose product
    does not underflow to zero, the inlet ghost value is computed and
    compares equal to [Cf]: [aux1] is a zero, [1 / (1 + aux1)] is exactly
    1, [aux1 * C1] is a zero and no operation rounds. *)
Theorem inlet_ghost_without_diffusion (C1 Cf D vz h : float) :
  PrimFloat.is_finite C1 = true ->
  (Cf =? Cf)%float = true ->
  (D =? 0)%float = true ->
  (0 <? vz)%float = true -> (0 <? h)%float = true ->
  (0 <? vz * h)%float = true ->
  exists C0, inlet_ghost C1 Cf D vz h = inr C0 /\ (C0 =? Cf)%float = true.
Proof.
  intros HC1 HCf HD _ _ Hvh.
  destruct binary64_literals as (E0 & E1 & _).
  unfold inlet_ghost, py_div. rewrite E0, E1.
  cbn [feqb fmul fdiv fadd scalar].
  rewrite (float_pos_nonzero _ Hvh). cbn [mbind result_bind mret result_ret].
  destruct (float_div_0_pos D (vz * h) HD Hvh) as [s Haux].
  rewrite (float_one_plus_zero _ s Haux).
  change (1 =? 0)%float with false. cbn [mbind result_bind mret result_ret].
  change (1 / 1)%float with 1%float.
  eexists. split; [done|].
  rewrite float_mul_1_l.
  destruct (float_zero_mul_finite _ C1 s Haux HC1) as [s' Hz].
  by apply (float_zero_add _ Cf s').
Qed.

Lemma inlet_ghost_without_diffusion_witness :
  PrimFloat.is_finite 3%float = true /\ (2 =? 2)%float = true
  /\ exists C0, inlet_ghost 3%float 2%float 0%float 1%float 0.5%float = inr C0
                /\ (C0 =? 2)%float = true.
Proof.
  split; [reflexivity|]. split; [reflexivity|].
  apply (inlet_ghost_without_diffusion 3 2 0 1 0.5); reflexivity.
Defined.

(** C3, as stated, fails.  With [vz = h = 2^-600], both positive, the
    product underflows to zero and Python's division [D / (vz * h)] raises;
    and with an infinite state entry [0 * inf] is NaN. *)
Lemma inlet_ghost_underflow_and_infinity :
  (0 <? 0x1p-600)%float = true
  /\ inlet_ghost 1%float 1%float 0%float 0x1p-600%float 0x1p-600%float
     = inl ZeroDivisionError
  /\ inlet_ghost infinity 1%float 0%float 1%float 1%float = inr nan
  /\ (nan =? 1)%float = false.
Proof. by vm_compute. Qed.
End InletGhost.

(** ** Concrete evaluations in binary64 *)

Section Evaluations.
Import Binary64.

(** C9: with D = 1, vz = 1, k = 0, Cf = 1, N = 3 (so [h = 1/3], as [get_h]
    computes it), state [1, 1, 1] and derivative [0, 0, 0], the kernel
    returns the residual [0, 0, 0] with status 0, whatever the residual
    buffer held before; every spatial difference is an exact zero. *)
Theorem steady_state_residual (t r0 r1 r2 : float) :
  get_h (Build_pfr 1 1 0 1 0 1 3 0)%float = inr (1 / 3)%float
  /\ model_pfr t [1; 1; 1]%float [0; 0; 0]%float
       (Build_pfr 1 1 0 1 0 1 3 (1 / 3))%float [r0; r1; r2]
     = inr ([0; 0; 0]%float, 0)
  /\ model_pfr_np t [1; 1; 1]%float [0; 0; 0]%float
       (Build_pfr 1 1 0 1 0 1 3 (1 / 3))%float [r0; r1; r2]
     = inr ([0; 0; 0]%float, 0).
Proof. repeat split; by vm_compute. Qed.

Lemma model_pfr_np_agrees_with_loop_witness :
  2 <= 4
  /\ model_pfr 5%float [1; 2; 4; 8]%float [0; 0; 0; 1]%float
       (Build_pfr 1 1 1 1 0 1 4 0.25)%float [7; 7; 7; 7]%float
     = model_pfr_np 5%float [1; 2; 4; 8]%float [0; 0; 0; 1]%float
       (Build_pfr 1 1 1 1 0 1 4 0.25)%float [7; 7; 7; 7]%float.
Proof.
  split; [lia|].
  apply (model_pfr_np_agrees_with_loop 5%float [1; 2; 4; 8]%float
           [0; 0; 0; 1]%float (Build_pfr 1 1 1 1 0 1 4 0.25)%float
           [7; 7; 7; 7]%float); reflexivity || (simpl; lia).
Defined.

Lemma shared_and_isolated_agree_witness :
  2 <= 4
  /\ model_pfr_np 5%float [1; 2; 4; 8]%float [0; 0; 0; 1]%float
       (Build_pfr 1 1 1 1 0 1 4 0.25)%float [7; 7; 7; 7]%float
     = model_pfr_np_no_share (fun _ => nan) 5%float [1; 2; 4; 8]%float
         [0; 0; 0; 1]%float (Build_pfr 1 1 1 1 0 1 4 0.25)%float.
Proof.
  split; [lia|].
  apply (shared_and_isolated_agree (fun _ => nan) 5%float [1; 2; 4; 8]%float
           [0; 0; 0; 1]%float (Build_pfr 1 1 1 1 0 1 4 0.25)%float
           [7; 7; 7; 7]%float); reflexivity || (simpl; lia).
Defined.

Lemma kernel_status_is_zero_witness :
  model_pfr 5%float [nan; 2]%float [0; 0]%float
    (Build_pfr 1 1 1 1 0 1 2 0.5)%float [7; 7]%float = inr ([nan; nan], 0)
  /\ 0 = 0.
Proof.
  split; [by vm_compute|].
  apply (kernel_status_is_zero 5%float [nan; 2]%float [0; 0]%float
           (Build_pfr 1 1 1 1 0 1 2 0.5)%float [7; 7]%float [nan; nan] 0).
  left. by vm_compute.
Defined.

(** C6, as stated, fails: no input at all, finite or not, makes a kernel
    return a nonzero status. *)
Lemma no_nonzero_status :
  ~ exists (t : float) y yp par res R s,
      Exists (fun x => PrimFloat.is_finite x = false) y
      /\ (model_pfr t y yp par res = inr (R, s)
          \/ model_pfr_np t y yp par res = inr (R, s))
      /\ s <> 0.
Proof.
  intros (t & y & yp & par & res & R & s & _ & [Hr|Hr] & Hs); apply Hs.
  - by eapply model_pfr_status.
  - by eapply model_pfr_np_status.
Qed.

Lemma model_pfr_subscripts_in_bounds_witness :
  2 <= 2
  /\ model_pfr 5%float [3; 2]%float [0; 0]%float
       (Build_pfr 0.5 1 1 1 0 1 2 0.5)%float [7; 7]%float
     = inr ([-1; 5]%float, 0).
Proof.
  split; [lia|].
  destruct (model_pfr_subscripts_in_bounds 5%float [3; 2]%float [0; 0]%float
              (Build_pfr 0.5 1 1 1 0 1 2 0.5)%float [7; 7]%float)
    as (_ & _ & _ & _ & _ & Htwo); [reflexivity || (simpl; lia)..|].
  destruct Htwo as [_ Htwo]; [reflexivity|].
  rewrite (Htwo (1, 0.5, 2, 1)%float) by (by vm_compute).
  by vm_compute.
Defined.
End Evaluations.


(** ** The kernel against the stated formula, in exact arithmetic *)

Section Formula.
Import Exact.
Local Open Scope Qc_scope.

Lemma exact_py_div (x y : Qc) : y <> 0 -> py_div x y = inr (x / y).
Proof.
  intros Hy. unfold py_div. cbn [feqb fdiv scalar].
  destruct (Qc_eq_bool y f0) eqn:E; [|done].
  apply Qc_eq_bool_correct in E. done.
Qed.

Lemma exact_coefficients (par : pfr Qc) :
  0 < vz par -> 0 < h par -> 1 + Spec.aux1 par <> 0 ->
  coefficients par
  = inr (Spec.aux1 par, 1 / (1 + Spec.aux1 par), D par / (h par * h par),
         vz par / (Spec.two * h par)).
Proof.
  intros Hvz Hh Hinv. unfold coefficients.
  assert (h par <> 0) as Hh0 by (apply not_eq_sym; by apply Qclt_not_eq).
  assert (vz par <> 0) as Hv0 by (apply not_eq_sym; by apply Qclt_not_eq).
  assert (forall a b : Qc, a <> 0 -> b <> 0 -> a * b <> 0) as Hmul.
  { intros a b Ha Hb Hab. by destruct (Qcmult_integral _ _ Hab). }
  cbn [fmul fadd scalar].
  rewrite exact_py_div by by apply Hmul.
  cbn [mbind result_bind].
  rewrite exact_py_div by done.
  cbn [mbind result_bind].
  unfold py_pow2, py_int_mul.
  cbn [mbind result_bind mret result_ret fmul is_finite of_int scalar andb negb].
  rewrite exact_py_div by by apply Hmul.
  cbn [mbind result_bind].
  rewrite exact_py_div by (by apply Hmul).
  done.
Qed.

Lemma exact_coefficients_undefined (par : pfr Qc) :
  0 < vz par -> 0 < h par -> 1 + Spec.aux1 par = 0 ->
  coefficients par = inl ZeroDivisionError.
Proof.
  intros Hvz Hh Hinv. unfold coefficients.
  assert (vz par * h par <> 0) as Hvh.
  { intros Hab. destruct (Qcmult_integral _ _ Hab) as [E|E];
      rewrite E in *; by eapply Qclt_not_eq. }
  cbn [fmul fadd scalar].
  rewrite exact_py_div by done. cbn [mbind result_bind].
  unfold py_div at 1. cbn [feqb fadd scalar].
  change (D par / (vz par * h par)) with (Spec.aux1 par).
  change f1 with 1. by rewrite Hinv.
Qed.

(** In exact arithmetic the kernel returns the stated formula, row by row,
    with node 0 the inlet ghost value and node N+1 the outlet ghost value;
    where [1 + aux1 = 0] the inlet formula divides by zero and the kernel
    raises. *)
Lemma exact_model_pfr_residual_formula (t : Qc) (y yp res : list Qc) (par : pfr Qc) :
  (2 <= N par)%Z -> size y = N par -> size yp = N par -> size res = N par ->
  0 < vz par -> 0 < h par ->
  (1 + Spec.aux1 par = 0
   /\ model_pfr t y yp par res = inl ZeroDivisionError)
  \/
  (1 + Spec.aux1 par <> 0
   /\ exists R, model_pfr t y yp par res = inr (R, 0%Z)
      /\ size R = N par
      /\ forall i : nat, (1 <= i <= length y)%nat ->
           R !! (i - 1)%nat = Some (Spec.residual par y yp i)).
Proof.
  intros Hn Hy Hyp Hres Hvz Hh.
  destruct (Qc_eq_dec (1 + Spec.aux1 par) 0) as [Hinv|Hinv]; [left|right];
    (split; [done|]).
  { destruct (sizes_nat y yp res par) as (n & ? & HN & Hly & Hlyp & ?); [done..|].
    rewrite (model_pfr_closed t y yp par res n) by done.
    by rewrite exact_coefficients_undefined. }
  revert Hn Hy Hyp Hres Hvz Hh Hinv.
  intros Hn Hy Hyp Hres Hvz Hh Hinv.
  destruct (sizes_nat y yp res par) as (n & ? & HN & Hly & Hlyp & ?); [done..|].
  rewrite (model_pfr_closed t y yp par res n) by done.
  rewrite exact_coefficients by done. cbn [mbind result_bind mret result_ret].
  eexists. split; [done|]. split.
  { unfold residual_rows, size. rewrite length_fmap, length_seq. lia. }
  intros i Hi. unfold residual_rows.
  rewrite list_lookup_fmap, lookup_seq_lt by lia.
  cbn [fmap option_fmap option_map Nat.add]. f_equal.
  assert (forall (v : list Qc) (j : nat), (1 <= j)%nat ->
            Spec.entry v j = at0 v (j - 1)) as Hentry by done.
  assert (h par ^ 2 = h par * h par) as Hpow
    by (cbn [Qcpower]; by rewrite Qcmult_1_r).
  unfold residual_row, Spec.residual, Spec.node, Spec.aux2, Spec.aux3,
    Spec.inlet_ghost, Spec.outlet_ghost.
  rewrite Hly.
  destruct (decide (i = 1%nat)) as [->|Hfirst];
    [|destruct (decide (i = n)) as [->|Hlast]].
  - rewrite decide_True by done.
    rewrite (decide_True (P := (1 - 1)%nat = 0%nat)) by done.
    rewrite !decide_False by lia.
    rewrite !Hentry by lia. cbn [Nat.sub Nat.add].
    cbn [fadd fsub fmul fneg scalar]. change f2 with Spec.two.
    rewrite Hpow. unfold Qcdiv. ring.
  - rewrite decide_False by lia. rewrite decide_True by done.
    rewrite (decide_True (P := (n + 1)%nat = S n)) by lia.
    rewrite !decide_False by lia.
    rewrite !Hentry by lia.
    replace (n - 1 - 1)%nat with (n - 2)%nat by lia.
    cbn [fadd fsub fmul fneg scalar]. change f2 with Spec.two.
    rewrite Hpow. unfold Qcdiv. ring.
  - rewrite !decide_False by lia.
    rewrite !Hentry by lia.
    replace (i - 1 + 1)%nat with i by lia.
    replace (i + 1 - 1)%nat with i by lia.
    cbn [fadd fsub fmul fneg scalar]. change f2 with Spec.two.
    rewrite Hpow. unfold Qcdiv. ring.
Qed.

End Formula.

(** ** The parameter object *)

Section PfrFacts.
Context {A : Type} `{Scalar A}.
Implicit Types (p : pfr A) (n : Z).

Lemma pfr_init_inv n p :
  pfr_init n = inr p ->
  exists hv, py_div_int (fsub f1 f0) n = inr hv
             /\ p = Build_pfr f1 f1 f1 f1 f0 f1 n hv.
Proof.
  unfold pfr_init, get_h. cbn [zf z0 N D vz k Cf].
  destruct (py_div_int (fsub f1 f0) n) as [e|hv]; [done|].
  cbn [mbind result_bind mret result_ret]. intros [= <-]. by exists hv.
Qed.

Lemma pfr_init_consistent n p : pfr_init n = inr p -> h_consistent p.
Proof.
  intros (hv & Hhv & ->)%pfr_init_inv. unfold h_consistent, get_h. done.
Qed.

Lemma pfr_apply_consistent (op : pfr_op A) p p' :
  writes_geometry op = false -> h_consistent p ->
  pfr_apply op p = inr p' -> h_consistent p'.
Proof.
  unfold h_consistent.
  destruct op as [[] x|m|]; try done;
    cbn [pfr_apply writes_geometry mret result_ret]; intros _ Hc.
  1-4: by intros [= <-].
  rewrite Hc. cbn [mbind result_bind mret result_ret]. by intros [= <-].
Qed.

Lemma pfr_apply_all_consistent (ops : list (pfr_op A)) p p' :
  Forall (fun op => writes_geometry op = false) ops -> h_consistent p ->
  pfr_apply_all ops p = inr p' -> h_consistent p'.
Proof.
  intros Hops. revert p. induction Hops as [|op ops Hop _ IH]; intros p Hc.
  - cbn [pfr_apply_all mret result_ret]. by intros [= <-].
  - cbn [pfr_apply_all].
    destruct (pfr_apply op p) as [e|p1] eqn:E; [done|].
    cbn [mbind result_bind]. apply IH. by eapply pfr_apply_consistent.
Qed.
End PfrFacts.

Section PfrExact.
Import Exact.
Local Open Scope Qc_scope.

Lemma Qc_of_Z_pos (n : Z) : 0 < Q2Qc (inject_Z n) <-> (0 < n)%Z.
Proof.
  unfold Qclt. cbn [this Q2Qc]. rewrite !Qred_correct.
  unfold Qlt, inject_Z. simpl. lia.
Qed.

Lemma Qc_of_Z_nonzero (n : Z) : n <> 0%Z -> Q2Qc (inject_Z n) <> 0.
Proof.
  intros Hn E. apply Q2Qc_eq_iff in E. unfold Qeq, inject_Z in E.
  simpl in E. lia.
Qed.

Lemma Qc_inv_pos (q : Qc) : q <> 0 -> (0 < / q <-> 0 < q).
Proof.
  intros Hq. unfold Qclt. cbn [this Qcinv Q2Qc]. rewrite !Qred_correct.
  split; intros Hpos.
  - rewrite <- (Qinv_involutive q). by apply Qinv_lt_0_compat.
  - by apply Qinv_lt_0_compat.
Qed.

Lemma exact_pfr_init (n : Z) :
  n <> 0%Z ->
  pfr_init n = inr (Build_pfr 1 1 1 1 0 1 n ((1 - 0) / Q2Qc (inject_Z n))).
Proof.
  intros Hn. unfold pfr_init, get_h, py_div_int.
  cbn [zf z0 N D vz k Cf of_int scalar mbind result_bind mret result_ret fsub].
  by rewrite exact_py_div by by apply Qc_of_Z_nonzero.
Qed.

(** C5 (as amended): [h] is computed once, by the constructor, and never
    recomputed.  A constructed object stores [h = (zf - z0)/N], the value
    [get_h] returns (positive, in exact arithmetic, when N >= 1); calls of
    [get_h] and assignments to [D], [vz], [k], [Cf], in any number and
    order, keep the stored [h] equal to what [get_h] returns; an
    assignment to [N], [z0] or [zf] leaves the stored [h] as it was. *)
Theorem pfr_h_computed_once {A : Type} {SA : Scalar A} (n : Z) (p : pfr A) :
  pfr_init n = inr p ->
  h_consistent p
  /\ (forall ops p',
        Forall (fun op => writes_geometry op = false) ops ->
        pfr_apply_all ops p = inr p' -> h_consistent p')
  /\ (forall m, h (setattr_N p m) = h p)
  /\ (forall x, h (setattr p attr_z0 x) = h p)
  /\ (forall x, h (setattr p attr_zf x) = h p)
  /\ (forall q : pfr Qc, (1 <= n)%Z -> pfr_init n = inr q -> Qclt (Q2Qc 0) (h q)).
Proof.
  intros Hp. pose proof (pfr_init_consistent n p Hp) as Hc.
  repeat split; try done.
  - intros ops p' Hops. by apply pfr_apply_all_consistent.
  - intros q Hn. rewrite (exact_pfr_init n) by lia. intros [= <-].
    cbn [h].
    replace ((1 - 0) / Q2Qc (inject_Z n))%Qc with (/ Q2Qc (inject_Z n))%Qc
      by (unfold Qcdiv; ring).
    apply Qc_inv_pos; [apply Qc_of_Z_nonzero; lia|]. apply Qc_of_Z_pos. lia.
Qed.

End PfrExact.


Section PfrBinary64.
Import Binary64.

(** C4, as stated, fails: [pfr(1)] is constructed, with [h = 1]. *)
Lemma pfr_init_accepts_one :
  pfr_init 1 = inr (Build_pfr 1 1 1 1 0 1 1 1)%float.
Proof. by vm_compute. Qed.
End PfrBinary64.

Section PfrBinary64Stale.
Import Binary64.

Lemma pfr_h_computed_once_witness :
  pfr_init 4 = inr (Build_pfr 1 1 1 1 0 1 4 0.25)%float
  /\ h_consistent (Build_pfr 1 1 1 1 0 1 4 0.25)%float.
Proof.
  split; [by vm_compute|].
  by apply (pfr_h_computed_once 4 (Build_pfr 1 1 1 1 0 1 4 0.25)%float).
Defined.

(** C5, as stated, fails: after [par.N = 8] on [pfr(4)] the stored [h] is
    still 0.25 while [(zf - z0)/N] is 0.125; and [pfr(-4)] has a negative
    [h]. *)
Lemma pfr_h_stale_after_assignment :
  pfr_init 4 = inr (Build_pfr 1 1 1 1 0 1 4 0.25)%float
  /\ pfr_apply_all [AssignN 8] (Build_pfr 1 1 1 1 0 1 4 0.25)%float
     = inr (Build_pfr 1 1 1 1 0 1 8 0.25)%float
  /\ get_h (Build_pfr 1 1 1 1 0 1 8 0.25)%float = inr 0.125%float
  /\ ~ h_consistent (Build_pfr 1 1 1 1 0 1 8 0.25)%float
  /\ pfr_init (-4) = inr (Build_pfr 1 1 1 1 0 1 (-4) (-0.25))%float
  /\ fltb 0%float (-0.25)%float = false.
Proof.
  repeat split; by vm_compute.
Qed.
End PfrBinary64Stale.


(** ** The benchmark set-up *)

Section BenchmarkFacts.
Context {A : Type} `{Scalar A}.
Implicit Types (σ : store A) (p : pfr A) (n : Z).

Lemma lookup_fresh σ (l : list (object A)) (i : nat) :
  (σ ++ l) !! (length σ + i)%nat = l !! i.
Proof. rewrite lookup_app_r by lia. f_equal. lia. Qed.

Lemma solver_setup_base_inr n p σ :
  pfr_init n = inr p -> 0 <= n ->
  solver_setup_base n σ
  = inr (VRef (length σ + 3)%nat,
         σ ++ base_objects (length σ) p (VRef (length σ))).
Proof.
  intros Hp Hn.
  assert (N p = n) as HN by (apply pfr_init_inv in Hp as (hv & _ & ->); done).
  unfold solver_setup_base, new_pfr, attr_N, np_zeros, alloc, load, lift.
  rewrite Hp. cbv [mbind prog_bind mret prog_ret].
  rewrite <- !app_assoc. cbn [app].
  rewrite list_lookup_middle by done. rewrite HN.
  destruct (Z.ltb_spec n 0); [lia|].
  rewrite <- !app_assoc. cbn [app]. rewrite !length_app. cbn [length].
  unfold base_objects. rewrite HN.
  repeat f_equal; lia.
Qed.


Lemma solver_setup_base_inl n σ :
  (exists e, pfr_init n = inl e) \/ n < 0 ->
  exists e, solver_setup_base n σ = inl e.
Proof.
  unfold solver_setup_base, new_pfr, attr_N, np_zeros, alloc, load, lift.
  intros [[e He]|Hn].
  - exists e. rewrite He. done.
  - destruct (pfr_init n) as [e|p] eqn:Hp; [by exists e|].
    assert (N p = n) as HN by (apply pfr_init_inv in Hp as (hv & _ & ->); done).
    exists ValueError. cbv [mbind prog_bind mret prog_ret].
    rewrite <- !app_assoc. cbn [app].
    rewrite list_lookup_middle by done. rewrite HN.
    destruct (Z.ltb_spec n 0); [done|lia].
Qed.

Lemma new_Pfr_Cython_inr n p σ :
  pfr_init n = inr p -> - 2 ^ 31 <= n < 2 ^ 31 ->
  new_Pfr_Cython n σ = inr (length σ, σ ++ [OParams cls_Pfr_Cython p]).
Proof.
  intros Hp Hn. unfold new_Pfr_Cython, alloc, lift.
  destruct (Z.leb_spec (- 2 ^ 31) n); [|lia].
  destruct (Z.ltb_spec n (2 ^ 31)); [|lia].
  cbn [andb]. by rewrite Hp.
Qed.

Lemma new_Numba_PFR_inr n p σ :
  pfr_init n = inr p -> - 2 ^ 31 <= n < 2 ^ 31 ->
  new_Numba_PFR n σ = inr (length σ, σ ++ [OParams cls_Numba_PFR p]).
Proof.
  intros Hp Hn. unfold new_Numba_PFR, alloc, lift.
  destruct (Z.leb_spec (- 2 ^ 31) n); [|lia].
  destruct (Z.ltb_spec n (2 ^ 31)); [|lia].
  cbn [andb]. by rewrite Hp.
Qed.

(** Re-binding entry 3 of the argument list just built. *)
Lemma rebind_par l0 p (par v : value A) σ :
  length σ = l0 ->
  subscript_assign (VRef (l0 + 3)%nat) 3 v (σ ++ base_objects l0 p par)
  = inr (tt, σ ++ base_objects l0 p v).
Proof.
  intros <-. unfold subscript_assign, load, update, lift.
  cbv [mbind prog_bind mret prog_ret].
  rewrite lookup_fresh. cbn [base_objects lookup list_lookup].
  rewrite setitem_inr by (unfold size; simpl; lia).
  by rewrite insert_app_r.
Qed.

Lemma setups_all_inr n p σ :
  pfr_init n = inr p -> 0 <= n < 2 ^ 31 ->
  setups_all n σ
  = inr (setup_value (length σ), σ ++ setup_objects (length σ) p).
Proof.
  intros Hp Hn. unfold setups_all.
  unfold mbind at 1, prog_bind at 1.
  rewrite (solver_setup_base_inr n p) by (done || lia).
  unfold mbind at 1, prog_bind at 1.
  rewrite (new_Pfr_Cython_inr n p) by (done || lia).
  unfold mbind at 1, prog_bind at 1.
  rewrite (solver_setup_base_inr n p) by (done || lia).
  unfold mbind at 1, prog_bind at 1.
  rewrite rebind_par by done.
  unfold mbind at 1, prog_bind at 1.
  rewrite (new_Numba_PFR_inr n p) by (done || lia).
  unfold mbind at 1, prog_bind at 1.
  rewrite (solver_setup_base_inr n p) by (done || lia).
  unfold mbind at 1, prog_bind at 1.
  rewrite rebind_par by done.
  unfold mret, prog_ret, setup_value, setup_objects.
  rewrite !length_app. cbn [length base_objects].
  rewrite <- !app_assoc.
  replace (length σ + 4 + 1 + 4 + 1 + 3)%nat with (length σ + 13)%nat by lia.
  replace (length σ + 4 + 1 + 4 + 1)%nat with (length σ + 10)%nat by lia.
  replace (length σ + 4 + 1 + 4)%nat with (length σ + 9)%nat by lia.
  replace (length σ + 4 + 1 + 3)%nat with (length σ + 8)%nat by lia.
  replace (length σ + 4 + 1)%nat with (length σ + 5)%nat by lia.
  done.
Qed.

Lemma setups_all_inv n σ v σ' :
  setups_all n σ = inr (v, σ') ->
  exists p, pfr_init n = inr p /\ 0 <= n < 2 ^ 31
    /\ v = setup_value (length σ) /\ σ' = σ ++ setup_objects (length σ) p.
Proof.
  intros Hs. destruct (pfr_init n) as [e|p] eqn:Hp.
  { destruct (solver_setup_base_inl n σ) as [e' He']; [left; by exists e|].
    unfold setups_all in Hs. unfold mbind at 1, prog_bind at 1 in Hs.
    by rewrite He' in Hs. }
  destruct (decide (n < 0)) as [Hneg|Hnn].
  { destruct (solver_setup_base_inl n σ) as [e' He']; [by right|].
    unfold setups_all in Hs. unfold mbind at 1, prog_bind at 1 in Hs.
    by rewrite He' in Hs. }
  destruct (decide (n < 2 ^ 31)) as [Hlt|Hge].
  { rewrite (setups_all_inr n p) in Hs by (done || lia).
    injection Hs as <- <-. exists p. repeat split; (done || lia). }
  unfold setups_all in Hs. unfold mbind at 1, prog_bind at 1 in Hs.
  rewrite (solver_setup_base_inr n p) in Hs by (done || lia).
  unfold mbind at 1, prog_bind at 1 in Hs.
  unfold new_Pfr_Cython in Hs.
  destruct (Z.ltb_spec n (2 ^ 31)); [lia|].
  by rewrite andb_false_r in Hs.
Qed.

Lemma setup_objects_eq (l0 : nat) p :
  setup_objects l0 p
  = [ OParams cls_pfr p; OArray [of_Q 5];
      OArray (replicate (Z.to_nat (N p)) f0);
      OList [VRef (l0 + 1)%nat; VRef (l0 + 2)%nat; VNone; VRef l0;
             VFloat (of_Q (1 # 1000000)); VFloat (of_Q (1 # 100000000))];
      OParams cls_Pfr_Cython p;
      OParams cls_pfr p; OArray [of_Q 5];
      OArray (replicate (Z.to_nat (N p)) f0);
      OList [VRef (l0 + 6)%nat; VRef (l0 + 7)%nat; VNone; VNone;
             VFloat (of_Q (1 # 1000000)); VFloat (of_Q (1 # 100000000))];
      OParams cls_Numba_PFR p;
      OParams cls_pfr p; OArray [of_Q 5];
      OArray (replicate (Z.to_nat (N p)) f0);
      OList [VRef (l0 + 11)%nat; VRef (l0 + 12)%nat; VNone; VRef (l0 + 9)%nat;
             VFloat (of_Q (1 # 1000000)); VFloat (of_Q (1 # 100000000))] ].
Proof.
  unfold setup_objects, base_objects. cbn [app].
  replace (l0 + 5 + 1)%nat with (l0 + 6)%nat by lia.
  replace (l0 + 5 + 2)%nat with (l0 + 7)%nat by lia.
  replace (l0 + 10 + 1)%nat with (l0 + 11)%nat by lia.
  replace (l0 + 10 + 2)%nat with (l0 + 12)%nat by lia.
  done.
Qed.

Lemma lookup_setup σ p (i : nat) :
  (σ ++ setup_objects (length σ) p) !! (length σ + i)%nat
  = setup_objects (length σ) p !! i.
Proof. apply lookup_fresh. Qed.

Lemma lookup_setup_0 σ p :
  (σ ++ setup_objects (length σ) p) !! length σ
  = setup_objects (length σ) p !! 0%nat.
Proof. rewrite <- lookup_setup. f_equal. lia. Qed.

Lemma reach_setup σ p :
  let l0 := length σ in
  let σ' := σ ++ setup_objects l0 p in
  reach 4 σ' (VRef (l0 + 3)%nat) = [l0 + 3; l0 + 1; l0 + 2; l0]%nat
  /\ reach 4 σ' (VTuple [VRef (l0 + 4)%nat; VRef (l0 + 8)%nat])
     = [l0 + 4; l0 + 8; l0 + 6; l0 + 7]%nat
  /\ reach 4 σ' (VRef (l0 + 13)%nat)
     = [l0 + 13; l0 + 11; l0 + 12; l0 + 9]%nat
  /\ reach 4 σ' (setup_value l0)
     = [l0 + 3; l0 + 1; l0 + 2; l0; l0 + 4; l0 + 8; l0 + 6; l0 + 7;
        l0 + 13; l0 + 11; l0 + 12; l0 + 9]%nat.
Proof.
  unfold setup_value.
  cbn zeta. cbn [reach mbind list_bind app].
  rewrite !lookup_setup. rewrite setup_objects_eq.
  cbn [lookup list_lookup mbind list_bind app].
  rewrite <- setup_objects_eq.
  rewrite !lookup_setup, !lookup_setup_0. rewrite setup_objects_eq.
  cbn [lookup list_lookup]. done.
Qed.

Lemma variant_setup_slot (w : variant) (a b c : value A) σ :
  variant_setup w (VTuple [a; b; c]) σ
  = inr (default VNone ([a; b; c] !! variant_slot w), σ).
Proof. by destruct w. Qed.

Lemma setup_contents σ p :
  let l0 := length σ in
  let σ' := σ ++ setup_objects l0 p in
  let zeros := replicate (Z.to_nat (N p)) f0 in
  setup_par σ' (VRef (l0 + 3)%nat) = Some p
  /\ setup_par σ' (VTuple [VRef (l0 + 4)%nat; VRef (l0 + 8)%nat]) = Some p
  /\ setup_par σ' (VRef (l0 + 13)%nat) = Some p
  /\ setup_y0 σ' (VRef (l0 + 3)%nat) = Some zeros
  /\ setup_y0 σ' (VTuple [VRef (l0 + 4)%nat; VRef (l0 + 8)%nat]) = Some zeros
  /\ setup_y0 σ' (VRef (l0 + 13)%nat) = Some zeros.
Proof.
  cbn zeta. unfold setup_par, setup_y0, args_par, args_y0.
  rewrite !lookup_setup. rewrite setup_objects_eq.
  cbn [lookup list_lookup].
  rewrite <- setup_objects_eq.
  rewrite !lookup_setup, !lookup_setup_0. rewrite setup_objects_eq.
  cbn [lookup list_lookup]. done.
Qed.

(** C8 (as amended): [setups_all] builds three set-up slots, not one per
    variant.  The slots (base, Cython-typed, numba) are made of objects
    allocated by this call, and no object of one slot is reachable from
    another: each slot has its own parameter object and its own [t0] and
    [y0] arrays (there is no derivative or residual buffer in a set-up:
    [yp0] is [None]).  The variants [run_py], [run_np], [run_cy_naive]
    and [run_np_no_share] all use slot 0, so they share one set-up;
    [run_cy_typed] uses slot 1 and [run_numba] slot 2.  Every slot carries
    the parameters [pfr(N)] evaluates to and a zero [y0] of length N, so
    that set-ups constructed independently, in any two stores, give the
    kernels the same parameters: their evaluations agree on identical
    inputs. *)
Theorem setups_all_slots n p σ :
  pfr_init n = inr p -> 0 <= n < 2 ^ 31 ->
  exists (base cy numba : value A) σ',
    setups_all n σ = inr (VTuple [base; cy; numba], σ')
    /\ (forall w, variant_setup w (VTuple [base; cy; numba]) σ'
                  = inr (default VNone ([base; cy; numba] !! variant_slot w), σ'))
    /\ (exists new, σ' = σ ++ new)
    /\ Forall (fun l => (length σ <= l < length σ')%nat)
         (reach 4 σ' (VTuple [base; cy; numba]))
    /\ disjoint_locs (reach 4 σ' base) (reach 4 σ' cy)
    /\ disjoint_locs (reach 4 σ' base) (reach 4 σ' numba)
    /\ disjoint_locs (reach 4 σ' cy) (reach 4 σ' numba)
    /\ Forall (fun s => setup_par σ' s = Some p
                        /\ setup_y0 σ' s = Some (replicate (Z.to_nat n) f0))
         [base; cy; numba]
    /\ (forall τ u τ' (w : variant) s1 s2 p1 p2,
          setups_all n τ = inr (u, τ') ->
          variant_setup w (VTuple [base; cy; numba]) σ' = inr (s1, σ') ->
          variant_setup w u τ' = inr (s2, τ') ->
          setup_par σ' s1 = Some p1 -> setup_par τ' s2 = Some p2 ->
          p1 = p2 /\ setup_y0 σ' s1 = setup_y0 τ' s2
          /\ forall t y yp res,
               model_pfr t y yp p1 res = model_pfr t y yp p2 res
               /\ model_pfr_np t y yp p1 res = model_pfr_np t y yp p2 res).
Proof.
  intros Hp Hn.
  assert (N p = n) as HN by (apply pfr_init_inv in Hp as (hv & _ & ->); done).
  destruct (reach_setup σ p) as (Rb & Rc & Rn & Rall).
  destruct (setup_contents σ p) as (Pb & Pc & Pn & Yb & Yc & Yn).
  cbn zeta in *. unfold setup_value in Rall.
  set (σ' := σ ++ setup_objects (length σ) p) in *.
  eexists _, _, _, σ'. split; [by apply setups_all_inr|].
  assert (length σ' = (length σ + 14)%nat) as Hlen
    by (subst σ'; rewrite length_app, setup_objects_eq; simpl; lia).
  split; [intros w; apply variant_setup_slot|].
  split; [by eexists|].
  split; [rewrite Rall; repeat constructor; lia|].
  rewrite Rb, Rc, Rn.
  split; [intros l; rewrite !elem_of_cons, !elem_of_nil; lia|].
  split; [intros l; rewrite !elem_of_cons, !elem_of_nil; lia|].
  split; [intros l; rewrite !elem_of_cons, !elem_of_nil; lia|].
  split; [rewrite <- HN; by repeat constructor|].
  intros τ u τ' w s1 s2 p1 p2.
  rewrite (setups_all_inr n p τ) by done. intros [= <- <-].
  destruct (setup_contents τ p) as (Pb' & Pc' & Pn' & Yb' & Yc' & Yn').
  cbn zeta in *.
  unfold setup_value. rewrite !variant_setup_slot.
  intros [= <-] [= <-].
  destruct w; cbn [variant_slot lookup list_lookup default from_option id];
    rewrite ?Pb, ?Pc, ?Pn, ?Pb', ?Pc', ?Pn', ?Yb, ?Yc, ?Yn, ?Yb', ?Yc', ?Yn';
    intros [= <-] [= <-]; done.
Qed.
End BenchmarkFacts.

Section BenchmarkBinary64.
Import Binary64.

Lemma setups_all_slots_witness :
  pfr_init 2 = inr (Build_pfr 1 1 1 1 0 1 2 0.5)%float
  /\ 0 <= 2 < 2 ^ 31
  /\ exists (base cy numba : value float) σ',
       setups_all 2 [] = inr (VTuple [base; cy; numba], σ')
       /\ disjoint_locs (reach 4 σ' base) (reach 4 σ' cy)
       /\ disjoint_locs (reach 4 σ' base) (reach 4 σ' numba)
       /\ disjoint_locs (reach 4 σ' cy) (reach 4 σ' numba).
Proof.
  split; [by vm_compute|]. split; [lia|].
  destruct (setups_all_slots 2 (Build_pfr 1 1 1 1 0 1 2 0.5)%float [])
    as (base & cy & numba & σ' & Hs & _ & _ & _ & Hbc & Hbn & Hcn & _);
    [by vm_compute|lia|].
  by exists base, cy, numba, σ'.
Defined.

(** C8, as stated, fails: [run_py] and [run_np] are different variants and
    are handed the same argument list, the object at location 3, with the
    same parameter object and the same [y0]. *)
Lemma run_py_and_run_np_share_a_setup :
  exists (v : value float) σ',
    setups_all 2 [] = inr (v, σ')
    /\ run_py <> run_np
    /\ variant_setup run_py v σ' = inr (VRef 3, σ')
    /\ variant_setup run_np v σ' = inr (VRef 3, σ')
    /\ reach 4 σ' (VRef 3) = [3; 1; 2; 0]%nat
    /\ ~ disjoint_locs (reach 4 σ' (VRef 3)) (reach 4 σ' (VRef 3)).
Proof.
  eexists _, _. split; [by vm_compute|].
  split; [done|]. split; [by vm_compute|]. split; [by vm_compute|].
  assert (forall σ', reach 4 σ' (VRef 3) = [3; 1; 2; 0]%nat ->
            ~ disjoint_locs (reach 4 σ' (@VRef float 3)) (reach 4 σ' (VRef 3)))
    as Hnd.
  { intros σ' ->. intros Hd. apply (Hd 3%nat); by left. }
  split; [by vm_compute|]. apply Hnd. by vm_compute.
Qed.
End BenchmarkBinary64.

(** ** More on the kernels: sizes *)

Section KernelSizes.
Context {A : Type} `{Scalar A}.
Implicit Types (y yp res : list A) (par : pfr A).

Lemma getitem_inr_range (a : list A) (i : Z) (x : A) :
  getitem a i = inr x -> - size a <= i < size a.
Proof.
  unfold getitem, wrap_index. pose proof (Nat2Z.is_nonneg (length a)).
  destruct (Z.ltb_spec i 0).
  - destruct (Z.leb_spec 0 (i + size a)), (Z.ltb_spec (i + size a) (size a));
      cbn [andb]; try done; intros _; unfold size in *; lia.
  - destruct (Z.leb_spec 0 i), (Z.ltb_spec i (size a));
      cbn [andb]; try done; intros _; unfold size in *; lia.
Qed.

Lemma setitem_inr_length (a a' : list A) (i : Z) (x : A) :
  setitem a i x = inr a' -> length a' = length a /\ - size a <= i < size a.
Proof.
  unfold setitem, wrap_index. pose proof (Nat2Z.is_nonneg (length a)).
  destruct (Z.ltb_spec i 0).
  - destruct (Z.leb_spec 0 (i + size a)), (Z.ltb_spec (i + size a) (size a));
      cbn [andb]; try done; intros [= <-]; rewrite length_insert;
      unfold size in *; lia.
  - destruct (Z.leb_spec 0 i), (Z.ltb_spec i (size a));
      cbn [andb]; try done; intros [= <-]; rewrite length_insert;
      unfold size in *; lia.
Qed.

Lemma clip_bound_le (a : list A) (i : Z) : (clip_bound a i <= length a)%nat.
Proof. unfold clip_bound, size. destruct (Z.ltb_spec i 0); lia. Qed.

Lemma setslice_inr_length (a a' v : list A) (s : Z) (e : option Z) :
  setslice a s e v = inr a' -> length a' = length a.
Proof.
  unfold setslice.
  set (s' := clip_bound a s). set (e' := from_option (clip_bound a) (length a) e).
  assert (s' <= length a)%nat as Hs by apply clip_bound_le.
  assert (e' <= length a)%nat as He
    by (unfold e'; destruct e; cbn; [apply clip_bound_le|lia]).
  destruct (decide (length v = (e' - s')%nat)) as [Hv|Hv].
  - intros [= <-]. rewrite !length_app, length_take, length_drop. lia.
  - destruct v as [|x [|? ?]]; try done. intros [= <-].
    rewrite !length_app, length_take, length_replicate, length_drop. lia.
Qed.

Lemma for_inr_length {S} (len : S -> nat) (l : list Z)
    (body : Z -> S -> result S) (s s' : S) :
  (forall i r r', body i r = inr r' -> len r' = len r) ->
  for_ l body s = inr s' -> len s' = len s.
Proof.
  intros Hbody. revert s. induction l as [|i l IH]; intros s.
  - by intros [= <-].
  - cbn [for_]. destruct (body i s) as [e|r] eqn:E; [done|].
    cbn [mbind result_bind]. intros Hl. rewrite (IH _ Hl). by eapply Hbody.
Qed.
End KernelSizes.

Section KernelReturns.
Context {A : Type} `{Scalar A}.
Implicit Types (y yp res : list A) (par : pfr A).

Ltac bind_inv_keep H :=
  repeat (let x := fresh "x" in let Hx := fresh "Hx" in
          apply bind_inr_inv in H as (x & Hx & H)).

(** What a return of the loop kernel says about its arguments. *)
Lemma model_pfr_inr_inv t y yp par res R s :
  model_pfr t y yp par res = inr (R, s) ->
  length R = length res
  /\ - size y <= 1 < size y
  /\ - size yp <= 0 < size yp
  /\ - size res <= 0 < size res
  /\ - size y <= N par - 1 < size y
  /\ - size yp <= N par - 1 < size yp
  /\ - size res <= N par - 1 < size res.
Proof.
  unfold model_pfr. intros Hr. bind_inv_keep Hr. injection Hr as <- <-.
  repeat match goal with
         | Hg : getitem _ _ = inr _ |- _ => apply getitem_inr_range in Hg
         | Hs : setitem _ _ _ = inr _ |- _ =>
             apply setitem_inr_length in Hs as [? ?]
         end.
  match goal with
  | Hf : for_ _ _ _ = inr _ |- _ =>
      apply (for_inr_length (@length A)) in Hf;
        [|intros i r r' Hb; bind_inv_keep Hb;
          by apply setitem_inr_length in Hb as [? _]]
  end.
  unfold size in *. repeat split; lia.
Qed.

(** The same for the numpy kernel. *)
Lemma model_pfr_np_inr_inv t y yp par res R s :
  model_pfr_np t y yp par res = inr (R, s) ->
  length R = length res
  /\ - size y <= 1 < size y
  /\ - size yp <= 0 < size yp
  /\ - size res <= 0 < size res
  /\ - size y <= N par - 1 < size y
  /\ - size yp <= N par - 1 < size yp
  /\ - size res <= N par - 1 < size res.
Proof.
  unfold model_pfr_np. intros Hr. bind_inv_keep Hr. injection Hr as <- <-.
  repeat match goal with
         | Hg : getitem _ _ = inr _ |- _ => apply getitem_inr_range in Hg
         | Hs : setitem _ _ _ = inr _ |- _ =>
             apply setitem_inr_length in Hs as [? ?]
         | Hs : setslice _ _ _ _ = inr _ |- _ =>
             apply setslice_inr_length in Hs
         end.
  unfold size in *. repeat split; lia.
Qed.

(** X1: whenever a kernel returns, the residual it returns has the length
    of the buffer it was given, whatever [par.N] and the lengths of [y] and
    [yp] are: the kernels write entries and never resize. *)
Theorem kernel_keeps_buffer_length t y yp par res R s :
  model_pfr t y yp par res = inr (R, s)
  \/ model_pfr_np t y yp par res = inr (R, s) ->
  length R = length res.
Proof.
  intros [Hr|Hr].
  - by apply model_pfr_inr_inv in Hr as (? & _).
  - by apply model_pfr_np_inr_inv in Hr as (? & _).
Qed.

(** X2: a kernel returns only on arrays that are long enough: [y] has at
    least two entries, [yp] and [res] at least one, and a positive [par.N]
    is at most the length of each of [y], [yp] and [res].  On shorter
    arrays the evaluation ends in an exception. *)
Theorem kernel_return_implies_sizes t y yp par res R s :
  model_pfr t y yp par res = inr (R, s)
  \/ model_pfr_np t y yp par res = inr (R, s) ->
  2 <= size y /\ 1 <= size yp /\ 1 <= size res
  /\ (1 <= N par ->
      N par <= size y /\ N par <= size yp /\ N par <= size res).
Proof.
  intros [Hr|Hr];
    [apply model_pfr_inr_inv in Hr|apply model_pfr_np_inr_inv in Hr];
    destruct Hr as (_ & ? & ? & ? & ? & ? & ?); repeat split; lia.
Qed.
End KernelReturns.


(** ** More on the kernels: what a residual row depends on *)

Section KernelStructure.
Context {A : Type} `{Scalar A}.
Implicit Types (y yp res : list A) (par : pfr A).

Lemma kernel_closed_inr t y yp par res R s (n : nat) :
  (2 <= n)%nat -> N par = Z.of_nat n ->
  length y = n -> length yp = n -> length res = n ->
  model_pfr t y yp par res = inr (R, s) ->
  exists c, coefficients par = inr c
            /\ R = residual_rows c par y yp /\ s = 0.
Proof.
  intros Hn HN Hy Hyp Hres.
  rewrite (model_pfr_closed t y yp par res n) by done.
  destruct (coefficients par) as [e|c]; [done|].
  cbn [mbind result_bind mret result_ret]. intros [= <- <-]. by exists c.
Qed.

Lemma residual_rows_lookup c par y yp (j : nat) :
  (j < length y)%nat ->
  residual_rows c par y yp !! j = Some (residual_row c par y yp j).
Proof.
  intros Hj. unfold residual_rows.
  by rewrite list_lookup_fmap, lookup_seq_lt by done.
Qed.

Lemma at0_ext (a a' : list A) (i : nat) : a !! i = a' !! i -> at0 a i = at0 a' i.
Proof. unfold at0. by intros ->. Qed.

Lemma residual_rows_rhs c par y yp :
  length yp = length y ->
  residual_rows c par y yp = zip_with fsub (rhs_rows c par y) yp.
Proof.
  intros Hl. apply list_eq. intros j.
  unfold residual_rows, rhs_rows.
  rewrite lookup_zip_with, !list_lookup_fmap.
  destruct (decide (j < length y)%nat) as [Hj|Hj].
  - rewrite lookup_seq_lt by done. cbn [fmap option_fmap option_map Nat.add].
    rewrite (at0_lookup yp j) by lia. cbn [mbind option_bind].
    f_equal. unfold residual_row, rhs_row. destruct c as [[[a1 i1] a2] a3].
    destruct (decide (j = 0%nat)) as [->|?]; [done|].
    destruct (decide (j = (length y - 1)%nat)) as [->|?]; done.
  - by rewrite lookup_seq_ge by lia.
Qed.

(** X3: for N >= 2 and arrays of length N, what the loop kernel returns
    does not depend on what the residual buffer held: every entry of the
    buffer is overwritten. *)
Theorem model_pfr_ignores_buffer_contents t y yp par res res' :
  2 <= N par -> size y = N par -> size yp = N par ->
  size res = N par -> size res' = N par ->
  model_pfr t y yp par res = model_pfr t y yp par res'.
Proof.
  intros Hn Hy Hyp Hres Hres'.
  destruct (sizes_nat y yp res par) as (n & ? & ? & ? & ? & ?); [done..|].
  rewrite (model_pfr_closed t y yp par res n) by done.
  rewrite (model_pfr_closed t y yp par res' n); [done..|].
  unfold size in *. lia.
Qed.

(** X4: row [j] of the residual is a function of [y[j-1]], [y[j]],
    [y[j+1]] and [yp[j]] alone (of the entries of these that exist): two
    evaluations with the same parameters whose states agree on those three
    entries and whose derivatives agree at [j] return the same row [j].
    The Jacobian of the residual is tridiagonal. *)
Theorem residual_row_is_local t t' y y' yp yp' par res res' R R' s s' (j : nat) :
  2 <= N par ->
  size y = N par -> size yp = N par -> size res = N par ->
  size y' = N par -> size yp' = N par -> size res' = N par ->
  (forall i : nat, (j - 1 <= i <= j + 1)%nat -> y !! i = y' !! i) ->
  yp !! j = yp' !! j ->
  model_pfr t y yp par res = inr (R, s) ->
  model_pfr t' y' yp' par res' = inr (R', s') ->
  R !! j = R' !! j.
Proof.
  intros Hn Hy Hyp Hres Hy' Hyp' Hres' Hys Hyps Hr Hr'.
  destruct (sizes_nat y yp res par) as (n & ? & ? & Hl & ? & ?); [done..|].
  assert (length y' = n /\ length yp' = n /\ length res' = n) as (Hl' & ? & ?)
    by (unfold size in *; lia).
  apply (kernel_closed_inr _ _ _ _ _ _ _ n) in Hr as (c & Hc & -> & _);
    [|done..].
  apply (kernel_closed_inr _ _ _ _ _ _ _ n) in Hr' as (c' & Hc' & -> & _);
    [|done..].
  assert (c' = c) as -> by congruence.
  destruct (decide (j < n)%nat) as [Hj|Hj].
  2:{ unfold residual_rows.
      by rewrite !list_lookup_fmap, !lookup_seq_ge by lia. }
  rewrite !residual_rows_lookup by lia. f_equal.
  unfold residual_row. destruct c as [[[a1 i1] a2] a3]. rewrite Hl, Hl'.
  destruct (decide (j = 0%nat)) as [->|?].
  { rewrite (at0_ext yp yp' 0) by done.
    by rewrite (at0_ext y y' 0), (at0_ext y y' 1) by (apply Hys; lia). }
  destruct (decide (j = (n - 1)%nat)) as [->|?].
  { rewrite (at0_ext yp yp' (n - 1)) by done.
    by rewrite (at0_ext y y' (n - 1)), (at0_ext y y' (n - 2))
      by (apply Hys; lia). }
  rewrite (at0_ext yp yp' j) by done.
  by rewrite (at0_ext y y' (j + 1)), (at0_ext y y' j), (at0_ext y y' (j - 1))
    by (apply Hys; lia).
Qed.

(** X5: the residual has the form [f(y) - yp].  If the loop kernel returns
    for a state [y] of length N >= 2, there is a vector [F] of length N,
    depending on the parameters and on [y] only, such that for every
    derivative [yp] and buffer of length N the kernel returns
    [F[i] - yp[i]] in every row, with status 0. *)
Theorem residual_is_rhs_minus_derivative t y yp0 par res0 R0 s0 :
  2 <= N par -> size y = N par -> size yp0 = N par -> size res0 = N par ->
  model_pfr t y yp0 par res0 = inr (R0, s0) ->
  exists F : list A,
    size F = N par
    /\ forall t' yp res, size yp = N par -> size res = N par ->
         model_pfr t' y yp par res = inr (zip_with fsub F yp, 0).
Proof.
  intros Hn Hy Hyp Hres Hr.
  destruct (sizes_nat y yp0 res0 par) as (n & ? & ? & Hl & ? & ?); [done..|].
  apply (kernel_closed_inr _ _ _ _ _ _ _ n) in Hr as (c & Hc & _ & _);
    [|done..].
  exists (rhs_rows c par y). split.
  { unfold rhs_rows, size. rewrite length_fmap, length_seq. lia. }
  intros t' yp res Hyp' Hres'.
  rewrite (model_pfr_closed t' y yp par res n), Hc
    by (done || (unfold size in *; lia)).
  cbn [mbind result_bind mret result_ret].
  rewrite residual_rows_rhs; [done|]. unfold size in *. lia.
Qed.
End KernelStructure.

(** ** More on the kernels: arrays longer than [par.N] *)

Section KernelPrefix.
Context {A : Type} `{Scalar A}.
Local Open Scope py_scope.
Implicit Types (y yp res : list A) (par : pfr A).

Ltac coeff_step :=
  match goal with
  | |- mbind _ ?m = _ => destruct m; [reflexivity|]; cbn [mbind result_bind]
  end.

Lemma at0_take (a : list A) (n i : nat) :
  (i < n)%nat -> at0 (take n a) i = at0 a i.
Proof. intros Hi. unfold at0. by rewrite lookup_take_lt. Qed.

Lemma model_pfr_prefix t y yp par res (n : nat) :
  (2 <= n)%nat -> N par = Z.of_nat n ->
  (n <= length y)%nat -> (n <= length yp)%nat -> (n <= length res)%nat ->
  model_pfr t y yp par res
  = c ← coefficients par;
    mret (residual_rows c par (take n y) (take n yp) ++ drop n res, 0%Z).
Proof.
  intros Hn HN Hy Hyp Hres.
  unfold model_pfr, coefficients. rewrite HN.
  rewrite !(getitem_at0 y 0), !(getitem_at0 y 1), !(getitem_at0 yp 0),
    !(getitem_at0 y (Z.of_nat n - 1)), !(getitem_at0 y (Z.of_nat n - 2)),
    !(getitem_at0 yp (Z.of_nat n - 1)) by (unfold size; lia).
  do 6 coeff_step.
  rename a into aux1, a0 into inv, a2 into aux2, a4 into aux3.
  replace (Z.to_nat (Z.of_nat n - 1)) with (n - 1)%nat by lia.
  replace (Z.to_nat (Z.of_nat n - 2)) with (n - 2)%nat by lia.
  change (Z.to_nat 0) with 0%nat. change (Z.to_nat 1) with 1%nat.
  rewrite setitem_inr by (unfold size; lia). cbn [mbind result_bind].
  replace (arange 1 (Z.of_nat n - 1)) with (Z.of_nat <$> seq 1 (n - 2))
    by (rewrite <- arange_seq; f_equal; lia).
  rewrite (for_write_rows (fun i =>
     aux2 * (at0 y (i + 1) - f2 * at0 y i + at0 y (i - 1))
     + (- aux3 * (at0 y (i + 1) - at0 y (i - 1)) + k par * at0 y i)
     - at0 yp i)).
  2:{ intros i r Hi Hr. rewrite length_insert in Hr.
      rewrite !getitem_at0 by (unfold size; lia). cbn [mbind result_bind].
      rewrite setitem_inr by (unfold size; lia).
      replace (Z.to_nat (Z.of_nat i + 1)) with (i + 1)%nat by lia.
      replace (Z.to_nat (Z.of_nat i - 1)) with (i - 1)%nat by lia.
      by rewrite Nat2Z.id. }
  cbn [mbind result_bind].
  rewrite setitem_inr
    by (unfold size; rewrite write_rows_length, length_insert; lia).
  cbn [mbind result_bind mret result_ret]. do 2 f_equal.
  replace (Z.to_nat (Z.of_nat n - 1)) with (n - 1)%nat by lia.
  apply list_eq. intros j.
  assert (length (residual_rows (aux1, inv, aux2, aux3) par
                    (take n y) (take n yp)) = n) as Hrows
    by (unfold residual_rows;
        rewrite length_fmap, length_seq, length_take; lia).
  destruct (decide (j < n)%nat) as [Hj|Hj].
  - rewrite lookup_app_l by lia.
    rewrite residual_rows_lookup by (rewrite length_take; lia).
    unfold residual_row. rewrite length_take.
    replace (n `min` length y)%nat with n by lia.
    destruct (decide (j = (n - 1)%nat)) as [->|Hlast].
    + rewrite list_lookup_insert_eq
        by (rewrite write_rows_length, length_insert; lia).
      rewrite decide_False by lia.
      by rewrite !at0_take by lia.
    + rewrite list_lookup_insert_ne by done.
      rewrite write_rows_lookup, length_insert.
      destruct (decide (j = 0%nat)) as [->|Hfirst].
      * rewrite decide_False by lia.
        rewrite list_lookup_insert_eq by lia.
        by rewrite !at0_take by lia.
      * rewrite decide_True by lia.
        by rewrite !at0_take by lia.
  - rewrite lookup_app_r by lia. rewrite Hrows, lookup_drop.
    rewrite list_lookup_insert_ne by lia.
    rewrite write_rows_lookup, length_insert.
    rewrite decide_False by lia.
    rewrite list_lookup_insert_ne by lia. f_equal. lia.
Qed.

(** X6: the loop kernel works on the first [par.N] entries only.  With
    N >= 2 and arrays of length at least N, it returns what it returns on
    the arrays cut to length N, followed by the entries of the buffer from
    index N on, which it leaves as they were. *)
Theorem model_pfr_works_on_first_N_entries t y yp par res :
  (2 <= N par)%Z ->
  (N par <= size y)%Z -> (N par <= size yp)%Z -> (N par <= size res)%Z ->
  model_pfr t y yp par res
  = x ← model_pfr t (take (Z.to_nat (N par)) y) (take (Z.to_nat (N par)) yp)
          par (take (Z.to_nat (N par)) res);
    mret (x.1 ++ drop (Z.to_nat (N par)) res, x.2).
Proof.
  intros Hn Hy Hyp Hres. unfold size in *.
  set (n := Z.to_nat (N par)).
  rewrite (model_pfr_prefix t y yp par res n) by lia.
  rewrite (model_pfr_closed t (take n y) (take n yp) par (take n res) n)
    by (rewrite ?length_take; lia).
  by destruct (coefficients par).
Qed.
End KernelPrefix.

(** ** Construction in binary64

    [float(N)] for an int of magnitude below [2^53] is exact, so
    [(zf - z0) / N] is a correctly rounded quotient by a nonzero finite
    float; the lemmas follow the mantissa through [SpecFloat]'s rounding. *)

Section Binary64Construction.
Import Binary64.

Lemma digits2_pos_lower (m : positive) : 2 ^ (Zpos (digits2_pos m) - 1) <= Zpos m.
Proof.
  induction m as [p IH|p IH|]; cbn [digits2_pos]; [| |simpl; lia].
  - rewrite Pos2Z.inj_succ.
    replace (Z.succ (Z.pos (digits2_pos p)) - 1) with (Z.succ (Z.pos (digits2_pos p) - 1)) by lia.
    rewrite Z.pow_succ_r by lia. lia.
  - rewrite Pos2Z.inj_succ.
    replace (Z.succ (Z.pos (digits2_pos p)) - 1) with (Z.succ (Z.pos (digits2_pos p) - 1)) by lia.
    rewrite Z.pow_succ_r by lia. lia.
Qed.

Lemma shr_1_m (mrs : shr_record) :
  0 <= shr_m mrs -> shr_m (shr_1 mrs) = shr_m mrs / 2.
Proof.
  destruct mrs as [[|[p|p|]|p] r s]; cbn [shr_m shr_1]; try done; intros _.
  - rewrite Pos2Z.inj_xI. apply (Z.div_unique _ _ _ 1); lia.
  - rewrite Pos2Z.inj_xO. apply (Z.div_unique _ _ _ 0); lia.
Qed.

Lemma iter_shr_1_m (p : positive) (mrs : shr_record) :
  0 <= shr_m mrs ->
  shr_m (SpecFloat.iter_pos shr_1 p mrs) = shr_m mrs / 2 ^ Zpos p.
Proof.
  revert mrs. induction p as [p IH|p IH|]; intros mrs Hm; cbn [SpecFloat.iter_pos].
  - assert (0 <= shr_m (shr_1 mrs)) as H1
      by (rewrite shr_1_m by done; apply Z.div_pos; lia).
    assert (0 <= shr_m (SpecFloat.iter_pos shr_1 p (shr_1 mrs))) as H2
      by (rewrite IH by done; apply Z.div_pos; lia).
    rewrite IH, IH, shr_1_m by done.
    rewrite !Z.div_div by lia. f_equal.
    replace (Z.pos p~1) with (1 + Z.pos p + Z.pos p) by lia.
    rewrite !Z.pow_add_r by lia. change (2 ^ 1) with 2. ring.
  - assert (0 <= shr_m (SpecFloat.iter_pos shr_1 p mrs)) as H2
      by (rewrite IH by done; apply Z.div_pos; lia).
    rewrite IH, IH by done.
    rewrite !Z.div_div by lia. f_equal.
    replace (Z.pos p~0) with (Z.pos p + Z.pos p) by lia.
    rewrite !Z.pow_add_r by lia. done.
  - rewrite shr_1_m by done. done.
Qed.

Lemma digits2_pos_upper (m : positive) : Zpos m < 2 ^ Zpos (digits2_pos m).
Proof.
  induction m as [p IH|p IH|]; cbn [digits2_pos]; [| |simpl; lia];
    rewrite Pos2Z.inj_succ, Z.pow_succ_r by lia; lia.
Qed.

Lemma digits2_pos_le (m : positive) (k : Z) :
  0 <= k -> Zpos m < 2 ^ k -> Zpos (digits2_pos m) <= k.
Proof.
  intros Hk Hm. pose proof (digits2_pos_lower m) as Hl.
  destruct (Z.le_gt_cases (Zpos (digits2_pos m)) k) as [|Hgt]; [done|].
  assert (2 ^ k <= 2 ^ (Zpos (digits2_pos m) - 1)) by (apply Z.pow_le_mono_r; lia).
  lia.
Qed.

Lemma digits2_pos_iter (m p : positive) :
  Zpos (digits2_pos (Pos.iter xO m p)) = Zpos (digits2_pos m) + Zpos p.
Proof.
  induction p as [|p IH] using Pos.peano_ind.
  - simpl. lia.
  - rewrite Pos.iter_succ. cbn [digits2_pos]. rewrite Pos2Z.inj_succ, IH. lia.
Qed.

(** One shift of [binary_round_aux]: a positive mantissa stays positive
    when the exponent is far from the subnormal range. *)
Lemma shr_fexp_pos (q : positive) (e : Z) (l : location) :
  -1000 <= e ->
  exists q' mrs' e', shr_fexp prec emax (Zpos q) e l = (mrs', e')
                     /\ shr_m mrs' = Zpos q' /\ Zpos q' <= Zpos q
                     /\ e <= e' <= Z.max e (e + Zpos (digits2_pos q) - 53).
Proof.
  intros He. unfold shr_fexp, Zdigits2.
  assert (shr_m (shr_record_of_loc (Z.pos q) l) = Zpos q) as Hm
    by (by destruct l as [|[]]).
  assert (fexp prec emax (Z.pos (digits2_pos q) + e) - e
          = Z.pos (digits2_pos q) - 53) as ->.
  { unfold fexp, SpecFloat.emin, prec, emax.
    pose proof (Pos2Z.is_pos (digits2_pos q)). lia. }
  unfold shr. destruct (Z.pos (digits2_pos q) - 53) as [|p|p] eqn:Hp.
  - exists q, (shr_record_of_loc (Z.pos q) l), e. repeat split; done || lia.
  - pose proof (iter_shr_1_m p (shr_record_of_loc (Z.pos q) l)) as Hit.
    rewrite Hm in Hit. specialize (Hit ltac:(lia)).
    assert (0 < Z.pos q / 2 ^ Z.pos p <= Z.pos q) as Hpos.
    { split.
      - apply Z.div_str_pos. split; [lia|].
        etrans; [|apply digits2_pos_lower].
        apply Z.pow_le_mono_r; lia.
      - apply Z.div_le_upper_bound; [lia|].
        assert (1 <= 2 ^ Z.pos p) by (apply (Z.pow_le_mono_r 2 0); lia). nia. }
    rewrite <- Hit in Hpos.
    destruct (shr_m (SpecFloat.iter_pos shr_1 p (shr_record_of_loc (Z.pos q) l)))
      as [|q'|q'] eqn:Hq; [lia| |lia].
    exists q', (SpecFloat.iter_pos shr_1 p (shr_record_of_loc (Z.pos q) l)), (e + Z.pos p).
    repeat split; done || lia.
  - exists q, (shr_record_of_loc (Z.pos q) l), e. repeat split; done || lia.
Qed.

Lemma round_nearest_even_pos (q : positive) (l : location) :
  exists q', round_nearest_even (Zpos q) l = Zpos q' /\ Zpos q' <= Zpos q + 1.
Proof.
  destruct l as [|[]]; cbn [round_nearest_even];
    try destruct (Z.even (Z.pos q)); eexists; split; reflexivity || lia.
Qed.

(** Rounding a positive mantissa of moderate size and exponent gives a
    finite nonzero float of the same sign. *)
Lemma binary_round_aux_finite (sx : bool) (q : positive) (e : Z) (l : location) :
  -1000 <= e <= 0 -> Zpos q < 2 ^ 200 ->
  exists m' e', binary_round_aux prec emax sx (Zpos q) e l
                = S754_finite sx m' e'.
Proof.
  intros He Hq. unfold binary_round_aux.
  destruct (shr_fexp_pos q e l) as (q1 & mrs1 & e1 & -> & Hm1 & Hq1 & He1);
    [lia|].
  pose proof (digits2_pos_le q 200 ltac:(lia) Hq) as Hd.
  rewrite Hm1.
  destruct (round_nearest_even_pos q1 (loc_of_shr_record mrs1))
    as (q2 & -> & Hq2).
  destruct (shr_fexp_pos q2 e1 loc_Exact)
    as (q3 & mrs3 & e3 & -> & -> & Hq3 & He3); [lia|].
  assert (Zpos q2 < 2 ^ 201) as Hq2'.
  { change (2 ^ 201) with (2 * 2 ^ 200). lia. }
  pose proof (digits2_pos_le q2 201 ltac:(lia) Hq2') as Hd2.
  assert ((e3 <=? emax - prec) = true) as ->
    by (apply Z.leb_le; unfold emax, prec; lia).
  eauto.
Qed.

Lemma binary_round_aux_exact (s : bool) (mz : positive) (ez : Z) :
  Zpos (digits2_pos mz) = 53 -> -1074 <= ez <= 971 ->
  binary_round_aux prec emax s (Zpos mz) ez loc_Exact = S754_finite s mz ez
  /\ bounded prec emax mz ez = true.
Proof.
  intros Hdz Hez.
  assert (fexp prec emax (53 + ez) - ez = 0) as Hfz.
  { unfold fexp, SpecFloat.emin, prec, emax. lia. }
  assert ((ez <=? emax - prec) = true) as Hle by (apply Z.leb_le; unfold emax, prec; lia).
  split.
  - unfold binary_round_aux, shr_fexp, Zdigits2. rewrite Hdz, Hfz.
    cbn [shr shr_record_of_loc shr_m loc_of_shr_record round_nearest_even].
    rewrite Hdz, Hfz. cbn [shr shr_record_of_loc shr_m].
    by rewrite Hle.
  - unfold bounded, canonical_mantissa. rewrite Hdz, Hle.
    replace (fexp prec emax (53 + ez)) with ez by lia.
    by rewrite Z.eqb_refl.
Qed.

(** An integer of magnitude below [2^53] converts without rounding, to a
    normalised mantissa of 53 digits. *)
Lemma binary_round_small (s : bool) (m : positive) :
  Zpos m < 2 ^ 53 ->
  exists m' e', binary_round prec emax s m 0 = S754_finite s m' e'
                /\ bounded prec emax m' e' = true
                /\ Zpos (digits2_pos m') = 53 /\ -52 <= e' <= 0.
Proof.
  intros Hm. pose proof (digits2_pos_le m 53 ltac:(lia) Hm) as Hd.
  pose proof (Pos2Z.is_pos (digits2_pos m)) as Hpos.
  unfold binary_round.
  assert (fexp prec emax (Z.pos (digits2_pos m) + 0) = Z.pos (digits2_pos m) - 53) as Hf.
  { unfold fexp, SpecFloat.emin, prec, emax. lia. }
  rewrite Hf. unfold shl_align.
  destruct (Z.pos (digits2_pos m) - 53 - 0) as [|q|q] eqn:Hq; [| lia |].
  - exists m, 0.
    destruct (binary_round_aux_exact s m 0) as [-> ->]; [lia..|].
    repeat split; done || lia.
  - exists (Pos.iter xO m q), (Z.pos (digits2_pos m) - 53).
    assert (Z.pos (digits2_pos (Pos.iter xO m q)) = 53) as Hdq
      by (rewrite digits2_pos_iter; lia).
    destruct (binary_round_aux_exact s (Pos.iter xO m q)
                (Z.pos (digits2_pos m) - 53)) as [-> ->]; [lia..|].
    repeat split; done || lia.
Qed.

Lemma int_to_float_small (n : Z) :
  n <> 0 -> - 2 ^ 53 < n < 2 ^ 53 ->
  exists m e,
    Prim2SF (SF2Prim (binary_normalize prec emax n 0 false))
    = S754_finite (n <? 0) m e
    /\ Zpos (digits2_pos m) = 53 /\ -52 <= e <= 0.
Proof.
  intros Hn Hr.
  assert (exists m e, binary_normalize prec emax n 0 false = S754_finite (n <? 0) m e
                      /\ bounded prec emax m e = true
                      /\ Zpos (digits2_pos m) = 53 /\ -52 <= e <= 0)
    as (m & e & -> & Hb & Hd & He).
  { destruct n as [|p|p]; [done| |]; cbn [binary_normalize Z.ltb Z.compare].
    - apply binary_round_small. lia.
    - apply binary_round_small. lia. }
  exists m, e. split; [|done]. by apply Prim2SF_SF2Prim.
Qed.

(** [1.0 / x] for such an [x]: finite, nonzero, of the sign of [x]. *)
Lemma float_one_div (x : float) (s : bool) (m : positive) (e : Z) :
  Prim2SF x = S754_finite s m e ->
  Zpos (digits2_pos m) = 53 -> -52 <= e <= 0 ->
  exists m' e', Prim2SF (1 / x)%float = S754_finite s m' e'.
Proof.
  intros Hx Hd He. rewrite FloatAxioms.div_spec, Hx.
  change (Prim2SF 1) with (S754_finite false 4503599627370496 (-52)).
  unfold SF64div. cbn [SFdiv xorb]. unfold SFdiv_core_binary, Zdigits2.
  rewrite Hd. change (Z.pos (digits2_pos 4503599627370496)) with 53.
  assert (Z.min (fexp prec emax (53 + -52 - (53 + e))) (-52 - e) = -105 - e) as ->.
  { unfold fexp, SpecFloat.emin, prec, emax. lia. }
  replace (-52 - e - (-105 - e)) with 53 by lia.
  change (Z.shiftl 4503599627370496 53) with (2 ^ 105).
  pose proof (digits2_pos_upper m) as Hup. rewrite Hd in Hup.
  pose proof (Z.div_eucl_eq (2 ^ 105) (Zpos m) ltac:(lia)) as Heq.
  pose proof (Z.mod_pos_bound (2 ^ 105) (Zpos m) ltac:(lia)) as Hmod.
  unfold Z.modulo in Hmod.
  destruct (Z.div_eucl (2 ^ 105) (Z.pos m)) as [q r] eqn:Hqr.
  assert (0 < q < 2 ^ 200) as Hq.
  { assert (2 ^ 53 * 2 ^ 52 = 2 ^ 105) by reflexivity.
    assert (2 ^ 105 < 2 ^ 200) by reflexivity.
    split; nia. }
  destruct q as [|q|q]; [lia| |lia].
  apply binary_round_aux_finite; lia.
Qed.

Lemma float_finite_is_finite (x : float) (s : bool) (m : positive) (e : Z) :
  Prim2SF x = S754_finite s m e -> PrimFloat.is_finite x = true.
Proof.
  intros Hx. unfold PrimFloat.is_finite, is_nan, is_infinity.
  rewrite !FloatAxioms.eqb_spec, FloatAxioms.abs_spec, Hx.
  cbn [SFabs]. unfold SFeqb, SFcompare.
  destruct s; by rewrite Z.compare_refl, Pos.compare_cont_refl.
Qed.

Lemma binary64_int_to_float (n : Z) :
  n <> 0 -> - 2 ^ 53 < n < 2 ^ 53 ->
  exists x m e,
    int_to_float n = inr x
    /\ Prim2SF x = S754_finite (n <? 0) m e
    /\ Zpos (digits2_pos m) = 53 /\ -52 <= e <= 0.
Proof.
  intros Hn Hr.
  destruct (int_to_float_small n Hn Hr) as (m & e & Hx & Hd & He).
  exists (SF2Prim (binary_normalize prec emax n 0 false)), m, e.
  split; [|done]. unfold int_to_float. cbn zeta.
  unfold is_infinity. rewrite FloatAxioms.eqb_spec, FloatAxioms.abs_spec, Hx.
  done.
Qed.

Lemma binary64_pfr_init (n : Z) :
  n <> 0 -> - 2 ^ 53 < n < 2 ^ 53 ->
  exists hv m e,
    pfr_init n = inr (Build_pfr f1 f1 f1 f1 f0 f1 n hv)
    /\ Prim2SF hv = S754_finite (n <? 0) m e.
Proof.
  intros Hn Hr.
  destruct (binary64_int_to_float n Hn Hr) as (x & m & e & Hi & Hx & Hd & He).
  destruct (float_one_div x _ m e Hx Hd He) as (m' & e' & Hh).
  exists (1 / x)%float, m', e'. split; [|done].
  unfold pfr_init, get_h, py_div_int, py_div.
  cbn [zf z0 N D vz k Cf of_int feqb fdiv fsub scalar].
  rewrite Hi. cbn [mbind result_bind mret result_ret].
  assert ((x =? f0)%float = false) as ->.
  { rewrite FloatAxioms.eqb_spec, Hx.
    change (Prim2SF f0) with (S754_zero false). by destruct (n <? 0). }
  cbn [mbind result_bind mret result_ret]. done.
Qed.
End Binary64Construction.

(** ** The kernel against the stated formula *)

Section ResidualFormula.
Context {A : Type} `{Scalar A}.
Local Open Scope py_scope.
Implicit Types (y yp res : list A) (par : pfr A).

(** What the coefficients are, when the coefficient arithmetic returns. *)
Lemma coefficients_inr_inv par (aux1 inv aux2 aux3 : A) :
  coefficients par = inr (aux1, inv, aux2, aux3) ->
  aux1 = fdiv (D par) (vz par * h par)
  /\ inv = fdiv f1 (f1 + aux1)
  /\ (exists hh, py_pow2 (h par) = inr hh /\ aux2 = fdiv (D par) hh)
  /\ (exists h2, py_int_mul 2 (h par) = inr h2 /\ aux3 = fdiv (vz par) h2).
Proof.
  unfold coefficients, py_div. intros Hc.
  destruct (feqb (vz par * h par) f0); [done|].
  cbn [mbind result_bind mret result_ret] in Hc.
  destruct (feqb (f1 + fdiv (D par) (vz par * h par)) f0); [done|].
  cbn [mbind result_bind mret result_ret] in Hc.
  destruct (py_pow2 (h par)) as [e|hh]; [done|].
  cbn [mbind result_bind mret result_ret] in Hc.
  destruct (feqb hh f0); [done|].
  cbn [mbind result_bind mret result_ret] in Hc.
  destruct (py_int_mul 2 (h par)) as [e|h2]; [done|].
  cbn [mbind result_bind mret result_ret] in Hc.
  destruct (feqb h2 f0); [done|].
  cbn [mbind result_bind mret result_ret] in Hc.
  injection Hc as <- <- <- <-. eauto 10.
Qed.

(** C2 (as amended): in every arithmetic, binary64 in particular, for
    N >= 2 and vectors of length N, the kernel raises exactly what the
    coefficient arithmetic raises and otherwise returns, with status 0, a
    residual of length N in which
    - row 1 and row N are the stated formula evaluated in the order it is
      written, with [C[0]] replaced by [C0 = 1/(1 + aux1) * (aux1*C[1] + Cf)]
      and [C[N+1]] by [C[N]];
    - every interior row is [aux2*(C[i+1] - 2*C[i] + C[i-1])
      + (-aux3*(C[i+1] - C[i-1]) + k*C[i]) - dC[i]], the stated terms
      added in another order;
    where [aux1 = D/(vz*h)], [aux2 = D/h**2] and [aux3 = vz/(2*h)] are
    the values the floating-point operations give.  In exact arithmetic
    the two orders give the same value. *)
Theorem model_pfr_residual_formula t y yp res par :
  (2 <= N par)%Z -> size y = N par -> size yp = N par -> size res = N par ->
  match coefficients par with
  | inl e => model_pfr t y yp par res = inl e
  | inr (aux1, inv, aux2, aux3) =>
      aux1 = fdiv (D par) (vz par * h par)
      /\ inv = fdiv f1 (f1 + aux1)
      /\ (exists hh, py_pow2 (h par) = inr hh /\ aux2 = fdiv (D par) hh)
      /\ (exists h2, py_int_mul 2 (h par) = inr h2
                      /\ aux3 = fdiv (vz par) h2)
      /\ exists R,
           model_pfr t y yp par res = inr (R, 0%Z)
           /\ size R = N par
           /\ R !! 0%nat
              = Some (stated_row aux2 aux3 (k par)
                        (inv * (aux1 * at0 y 0 + Cf par))
                        (at0 y 0) (at0 y 1) (at0 yp 0))
           /\ R !! (length y - 1)%nat
              = Some (stated_row aux2 aux3 (k par)
                        (at0 y (length y - 2)) (at0 y (length y - 1))
                        (at0 y (length y - 1)) (at0 yp (length y - 1)))
           /\ forall j : nat, (1 <= j < length y - 1)%nat ->
                R !! j
                = Some (computed_row aux2 aux3 (k par)
                          (at0 y (j - 1)) (at0 y j) (at0 y (j + 1))
                          (at0 yp j))
  end
  /\ forall a2 a3 k0 Cm Ci Cp dC : Qc,
       @computed_row Qc Exact.scalar a2 a3 k0 Cm Ci Cp dC
       = @stated_row Qc Exact.scalar a2 a3 k0 Cm Ci Cp dC.
Proof.
  intros Hn Hy Hyp Hres. split.
  2:{ intros. unfold computed_row, stated_row.
      cbn [fadd fsub fmul fneg Exact.scalar]. ring. }
  destruct (sizes_nat y yp res par) as (n & ? & HN & Hly & Hlyp & ?); [done..|].
  rewrite (model_pfr_closed t y yp par res n) by done.
  destruct (coefficients par) as [e|[[[aux1 inv] aux2] aux3]] eqn:Hc; [done|].
  destruct (coefficients_inr_inv par _ _ _ _ Hc) as (? & ? & ? & ?).
  do 4 (split; [done|]).
  cbn [mbind result_bind mret result_ret].
  eexists. split; [done|]. split.
  { unfold residual_rows, size. rewrite length_fmap, length_seq. lia. }
  split; [|split].
  - rewrite residual_rows_lookup by lia.
    unfold residual_row. by rewrite decide_True by done.
  - rewrite residual_rows_lookup by lia.
    unfold residual_row. rewrite decide_False by lia.
    by rewrite decide_True by done.
  - intros j Hj. rewrite residual_rows_lookup by lia.
    unfold residual_row. by rewrite !decide_False by lia.
Qed.
End ResidualFormula.

Section ResidualFormulaBinary64.
Import Binary64.

Lemma model_pfr_residual_formula_witness :
  (2 <= 4)%Z
  /\ exists R : list float,
       model_pfr 5%float [1; 2; 4; 8]%float [0; 0; 0; 1]%float
         (Build_pfr 1 1 1 1 0 1 4 0.25)%float [7; 7; 7; 7]%float
       = inr (R, 0)
       /\ R !! 1%nat = Some (computed_row 16 2 1 1 2 4 0)%float
       /\ R !! 2%nat = Some (computed_row 16 2 1 2 4 8 0)%float
       /\ R !! 3%nat = Some (stated_row 16 2 1 4 8 8 1)%float.
Proof.
  split; [lia|].
  pose proof (model_pfr_residual_formula 5%float [1; 2; 4; 8]%float
                [0; 0; 0; 1]%float [7; 7; 7; 7]%float
                (Build_pfr 1 1 1 1 0 1 4 0.25)%float) as [Hw _];
    [reflexivity || (simpl; lia)..|].
  assert (exists aux1 inv : float,
            coefficients (Build_pfr 1 1 1 1 0 1 4 0.25)%float
            = inr (aux1, inv, 16, 2)%float) as (aux1 & inv & Hc)
    by (eexists _, _; by vm_compute).
  rewrite Hc in Hw.
  destruct Hw as (_ & _ & _ & _ & R & HR & _ & _ & Hlast & Hint).
  exists R. split; [done|]. split; [|split].
  - apply (Hint 1%nat). simpl. lia.
  - apply (Hint 2%nat). simpl. lia.
  - exact Hlast.
Defined.

(** C2, as stated, fails in binary64.  With [D = vz = k = 1], [h = 0.25]
    and the state [0, 0.1, 0.4, 0] (the nearest floats), the kernel
    returns 2.5 in the second row, where the formula in its written order
    gives the next float above 2.5; with [vz = h = 2^-600], both positive,
    the product underflows and the kernel raises [ZeroDivisionError]; with
    [h = 2^600] the square overflows and it raises [OverflowError]. *)
Lemma residual_formula_not_bit_for_bit :
  (exists (aux1 inv : float) (R : list float),
      (0 <? 1)%float = true /\ (0 <? 0.25)%float = true
      /\ coefficients (Build_pfr 1 1 1 1 0 1 4 0.25)%float
         = inr (aux1, inv, 16, 2)%float
      /\ model_pfr 0%float
           [0; 0x1.999999999999ap-4; 0x1.999999999999ap-2; 0]%float
           [0; 0; 0; 0]%float (Build_pfr 1 1 1 1 0 1 4 0.25)%float
           [0; 0; 0; 0]%float
         = inr (R, 0)
      /\ R !! 1%nat = Some 2.5%float
      /\ (stated_row 16 2 1 0 0x1.999999999999ap-4 0x1.999999999999ap-2 0
          = 0x1.4000000000001p+1)%float
      /\ (2.5 =? 0x1.4000000000001p+1)%float = false)
  /\ (0 <? 0x1p-600)%float = true
  /\ model_pfr 0%float [1; 1]%float [0; 0]%float
       (Build_pfr 1 0x1p-600 1 1 0 1 2 0x1p-600)%float [0; 0]%float
     = inl ZeroDivisionError
  /\ (0 <? 0x1p+600)%float = true
  /\ model_pfr 0%float [1; 1]%float [0; 0]%float
       (Build_pfr 1 1 1 1 0 1 2 0x1p+600)%float [0; 0]%float
     = inl OverflowError.
Proof.
  split; [|by vm_compute].
  eexists _, _, _. repeat split; by vm_compute.
Qed.
End ResidualFormulaBinary64.

(** ** The constructor in binary64 *)

Section PfrBinary64Domain.
Import Binary64.

(** C4 (as amended): the constructor takes N alone and validates nothing.
    In binary64, for every N of magnitude below 2^53, [pfr(N)] raises
    exactly when N = 0, and then [ZeroDivisionError], from the division in
    [get_h]; for every other N, N = 1 and negative N included, it
    succeeds, with [zf = 1], [z0 = 0], [vz = 1] fixed and a stored [h]
    that is what [get_h] returns for [(zf - z0)/N], finite, nonzero and
    positive exactly when N is; so every construction with
    2 <= N < 2^53 yields [h = (zf - z0)/N > 0].  In every arithmetic a
    constructed object has the N it was given, the fixed attributes, and a
    stored [h] equal to what [get_h] returns.  There is a largest N:
    [pfr(2^1024)] raises [OverflowError], from the conversion of N. *)
Theorem pfr_init_unvalidated (n : Z) :
  - 2 ^ 53 < n < 2 ^ 53 ->
  (n = 0 -> @pfr_init float _ n = inl ZeroDivisionError)
  /\ (n <> 0 ->
      exists p : pfr float,
        pfr_init n = inr p
        /\ N p = n /\ zf p = 1%float /\ z0 p = 0%float /\ vz p = 1%float
        /\ get_h p = inr (h p)
        /\ PrimFloat.is_finite (h p) = true
        /\ (0 <? h p)%float = (0 <? n)
        /\ (h p <? 0)%float = (n <? 0))
  /\ (2 <= n ->
      exists p : pfr float, pfr_init n = inr p /\ (0 <? h p)%float = true)
  /\ (forall (B : Type) (SB : Scalar B) (p : pfr B),
        pfr_init n = inr p ->
        N p = n /\ zf p = f1 /\ z0 p = f0 /\ vz p = f1 /\ h_consistent p)
  /\ @pfr_init float _ (2 ^ 1024) = inl OverflowError.
Proof.
  intros Hr.
  assert (n <> 0 ->
          exists p : pfr float,
            pfr_init n = inr p
            /\ N p = n /\ zf p = 1%float /\ z0 p = 0%float /\ vz p = 1%float
            /\ get_h p = inr (h p)
            /\ PrimFloat.is_finite (h p) = true
            /\ (0 <? h p)%float = (0 <? n)
            /\ (h p <? 0)%float = (n <? 0)) as Hok.
  { intros Hn.
    destruct (binary64_pfr_init n Hn Hr) as (hv & m & e & Hp & Hh).
    eexists. split; [exact Hp|]. cbn [N zf z0 vz h].
    do 4 (split; [done|]).
    split; [by apply (pfr_init_consistent n)|].
    split; [by eapply float_finite_is_finite|].
    rewrite !FloatAxioms.ltb_spec, Hh.
    change (Prim2SF 0) with (S754_zero false).
    unfold SFltb, SFcompare.
    destruct (Z.ltb_spec n 0), (Z.ltb_spec 0 n); done || lia. }
  split; [by intros ->; vm_compute|]. split; [done|]. split; [|split].
  - intros Hn. destruct Hok as (p & Hp & _ & _ & _ & _ & _ & _ & Hpos & _);
      [lia|].
    exists p. split; [done|]. rewrite Hpos. apply Z.ltb_lt. lia.
  - intros B SB p Hp. pose proof (pfr_init_consistent n p Hp) as Hc.
    apply pfr_init_inv in Hp as (hv & _ & ->). done.
  - by vm_compute.
Qed.

Lemma pfr_init_unvalidated_witness :
  - 2 ^ 53 < 20 < 2 ^ 53
  /\ exists p : pfr float,
       pfr_init 20 = inr p /\ (0 <? h p)%float = true.
Proof.
  split; [lia|].
  destruct (pfr_init_unvalidated 20) as (_ & _ & Hpos & _); [lia|].
  apply Hpos. lia.
Defined.
End PfrBinary64Domain.

(** ** The set-up functions: when they return, what they raise *)

Section BenchmarkErrors.
Context {A : Type} `{Scalar A}.

Lemma solver_setup_base_raises_init n e (σ : store A) :
  pfr_init n = inl e -> solver_setup_base n σ = inl e.
Proof.
  intros He. unfold solver_setup_base, new_pfr, lift.
  cbv [mbind prog_bind]. by rewrite He.
Qed.

Lemma solver_setup_base_negative n p (σ : store A) :
  pfr_init n = inr p -> n < 0 -> solver_setup_base n σ = inl ValueError.
Proof.
  intros Hp Hn.
  assert (N p = n) as HN by (apply pfr_init_inv in Hp as (hv & _ & ->); done).
  unfold solver_setup_base, new_pfr, attr_N, np_zeros, alloc, load, lift.
  rewrite Hp. cbv [mbind prog_bind mret prog_ret].
  rewrite <- !app_assoc. cbn [app].
  rewrite list_lookup_middle by done. rewrite HN.
  by destruct (Z.ltb_spec n 0); [|lia].
Qed.

Lemma setups_all_raises n e (σ : store A) :
  solver_setup_base n σ = inl e -> setups_all n σ = inl e.
Proof.
  intros He. unfold setups_all. unfold mbind at 1, prog_bind at 1.
  by rewrite He.
Qed.
End BenchmarkErrors.

Section BenchmarkDomain.
Import Binary64.

(** X8: in binary64, for every N of magnitude below 2^53, [pfr(N)] raises
    exactly when N = 0, and then [ZeroDivisionError]; otherwise it returns
    the object with the fixed attributes, the given N, and a stored [h]
    that is finite, nonzero and of the sign of N.  Nothing is validated: a
    negative N gives a negative [h]. *)
Theorem pfr_init_binary64 (n : Z) :
  - 2 ^ 53 < n < 2 ^ 53 ->
  match pfr_init n with
  | inl e => n = 0 /\ e = ZeroDivisionError
  | inr p =>
      n <> 0
      /\ p = (Build_pfr 1 1 1 1 0 1 n (h p))%float
      /\ PrimFloat.is_finite (h p) = true
      /\ (0 <? h p)%float = (0 <? n)
      /\ (h p <? 0)%float = (n <? 0)
  end.
Proof.
  intros Hr. destruct (decide (n = 0)) as [->|Hn]; [by vm_compute|].
  destruct (binary64_pfr_init n Hn Hr) as (hv & m & e & -> & Hh).
  cbn [h]. split; [done|]. split; [done|].
  split; [by eapply float_finite_is_finite|].
  rewrite !FloatAxioms.ltb_spec, Hh.
  change (Prim2SF 0) with (S754_zero false).
  unfold SFltb, SFcompare.
  destruct (Z.ltb_spec n 0), (Z.ltb_spec 0 n); done || lia.
Qed.

(** X9: in binary64, for every N in the int32 range,
    [solver_setup_base(N)] returns exactly when N >= 1.  It raises
    [ZeroDivisionError] for N = 0, from [pfr(N)], and [ValueError] for a
    negative N, from [np.zeros(par.N)] after [pfr(N)] has succeeded.  When
    it returns, it has allocated four objects after the existing ones and
    changed none: the parameter object, [t0], [y0] with N zeros, and the
    six-entry argument list it returns. *)
Theorem solver_setup_base_binary64 (n : Z) (σ : list (object float)) :
  - 2 ^ 31 <= n < 2 ^ 31 ->
  match solver_setup_base n σ with
  | inl e =>
      n <= 0 /\ e = (if decide (n = 0) then ZeroDivisionError else ValueError)
  | inr (v, σ') =>
      1 <= n /\ v = VRef (length σ + 3)%nat
      /\ exists p, pfr_init n = inr p
           /\ σ' = σ ++ base_objects (length σ) p (VRef (length σ))
  end.
Proof.
  intros Hr. destruct (decide (n = 0)) as [->|Hn].
  { rewrite (solver_setup_base_raises_init 0 ZeroDivisionError)
      by (by vm_compute). done. }
  destruct (binary64_pfr_init n Hn) as (hv & m & e & Hp & _); [lia|].
  destruct (decide (n < 0)) as [Hneg|Hpos].
  - rewrite (solver_setup_base_negative n _ σ Hp Hneg). split; [lia|done].
  - rewrite (solver_setup_base_inr n _ σ Hp) by lia.
    split; [lia|]. split; [done|]. by eexists.
Qed.

(** X10: in binary64, for every N in the int32 range, [setups_all(N)]
    returns exactly when N >= 1, with the errors of its first call of
    [solver_setup_base] otherwise; the constructors [Pfr_Cython(N)] and
    [Numba_PFR(N)] and the two later calls of [solver_setup_base] cannot
    fail once the first call has returned.  A returning call allocates
    fourteen objects after the existing ones. *)
Theorem setups_all_binary64 (n : Z) (σ : list (object float)) :
  - 2 ^ 31 <= n < 2 ^ 31 ->
  match setups_all n σ with
  | inl e =>
      n <= 0 /\ e = (if decide (n = 0) then ZeroDivisionError else ValueError)
  | inr (v, σ') =>
      1 <= n /\ v = setup_value (length σ)
      /\ take (length σ) σ' = σ /\ length σ' = (length σ + 14)%nat
  end.
Proof.
  intros Hr. destruct (decide (n = 0)) as [->|Hn].
  { rewrite (setups_all_raises 0 ZeroDivisionError); [done|].
    apply solver_setup_base_raises_init. by vm_compute. }
  destruct (binary64_pfr_init n Hn) as (hv & m & e & Hp & _); [lia|].
  destruct (decide (n < 0)) as [Hneg|Hpos].
  - rewrite (setups_all_raises n ValueError)
      by (by eapply solver_setup_base_negative).
    split; [lia|done].
  - rewrite (setups_all_inr n _ σ Hp) by lia.
    split; [lia|]. split; [done|]. split.
    + by rewrite take_app_length.
    + rewrite length_app, setup_objects_eq. done.
Qed.

Lemma pfr_init_binary64_witness :
  - 2 ^ 53 < -4 < 2 ^ 53
  /\ match pfr_init (-4) with
     | inl e => -4 = 0 /\ e = ZeroDivisionError
     | inr p =>
         -4 <> 0
         /\ p = (Build_pfr 1 1 1 1 0 1 (-4) (h p))%float
         /\ PrimFloat.is_finite (h p) = true
         /\ (0 <? h p)%float = (0 <? -4)
         /\ (h p <? 0)%float = (-4 <? 0)
     end.
Proof. split; [lia|]. apply (pfr_init_binary64 (-4)). lia. Defined.

Lemma solver_setup_base_binary64_witness :
  - 2 ^ 31 <= 3 < 2 ^ 31
  /\ match solver_setup_base 3 [] with
     | inl e =>
         3 <= 0
         /\ e = (if decide (3 = 0) then ZeroDivisionError else ValueError)
     | inr (v, σ') =>
         1 <= 3 /\ v = VRef (length (@nil (object float)) + 3)%nat
         /\ exists p, pfr_init 3 = inr p
              /\ σ' = [] ++ base_objects (length (@nil (object float))) p
                              (VRef (length (@nil (object float))))
     end.
Proof. split; [lia|]. apply (solver_setup_base_binary64 3 []). lia. Defined.

Lemma setups_all_binary64_witness :
  - 2 ^ 31 <= -1 < 2 ^ 31
  /\ match setups_all (-1) [] with
     | inl e =>
         -1 <= 0
         /\ e = (if decide (-1 = 0) then ZeroDivisionError else ValueError)
     | inr (v, σ') =>
         1 <= -1 /\ v = setup_value (length (@nil (object float)))
         /\ take (length (@nil (object float))) σ' = []
         /\ length σ' = (length (@nil (object float)) + 14)%nat
     end.
Proof. split; [lia|]. apply (setups_all_binary64 (-1) []). lia. Defined.
End BenchmarkDomain.

(** ** The typed Cython kernel *)

Section CythonFacts.
Context {A : Type} `{Scalar A}.
Local Open Scope py_scope.
Implicit Types (y yp res : list A) (par self : pfr A).

Lemma c_getitem_at0 (a : list A) (i : Z) :
  (0 <= i < size a)%Z -> c_getitem a i = Some (at0 a (Z.to_nat i)).
Proof.
  intros Hi. unfold c_getitem.
  destruct (Z.leb_spec 0 i); [|lia]. destruct (Z.ltb_spec i (size a)); [|lia].
  cbn [andb]. apply at0_lookup. unfold size in *. lia.
Qed.

Lemma c_setitem_Some (a : list A) (i : Z) (x : A) :
  (0 <= i < size a)%Z -> c_setitem a i x = Some (<[Z.to_nat i := x]> a).
Proof.
  intros Hi. unfold c_setitem.
  destruct (Z.leb_spec 0 i); [|lia]. by destruct (Z.ltb_spec i (size a)); [|lia].
Qed.

Lemma c_getitem_Some_range (a : list A) (i : Z) (x : A) :
  c_getitem a i = Some x -> (0 <= i < size a)%Z.
Proof.
  unfold c_getitem.
  by destruct (Z.leb_spec 0 i), (Z.ltb_spec i (size a)).
Qed.

Lemma c_setitem_Some_length (a a' : list A) (i : Z) (x : A) :
  c_setitem a i x = Some a' -> length a' = length a /\ (0 <= i < size a)%Z.
Proof.
  unfold c_setitem.
  destruct (Z.leb_spec 0 i), (Z.ltb_spec i (size a)); cbn [andb]; try done.
  intros [= <-]. by rewrite length_insert.
Qed.

Lemma c_for_Some_length (l : list Z) (body : Z -> list A -> option (list A))
    (s s' : list A) :
  (forall i r r', body i r = Some r' -> length r' = length r) ->
  c_for l body s = Some s' -> length s' = length s.
Proof.
  intros Hbody. revert s. induction l as [|i l IH]; intros s.
  - by intros [= <-].
  - cbn [c_for]. destruct (body i s) as [r|] eqn:E; [|done].
    cbn [mbind option_bind]. intros Hl. rewrite (IH _ Hl). by eapply Hbody.
Qed.

Lemma c_for_write_rows (g : nat -> A) (body : Z -> list A -> option (list A))
    (s m : nat) res :
  (forall (i : nat) r, (s <= i < s + m)%nat -> length r = length res ->
      body (Z.of_nat i) r = Some (<[i := g i]> r)) ->
  c_for (Z.of_nat <$> seq s m) body res = Some (write_rows g res (seq s m)).
Proof.
  revert s res. induction m as [|m IH]; intros s res Hbody; [done|].
  simpl. rewrite Hbody by (done || lia). simpl.
  rewrite IH; [done|].
  intros i r Hi Hr. apply Hbody; [lia|]. by rewrite Hr, length_insert.
Qed.

(** The typed kernel in closed form, on buffers of length at least N. *)
Lemma cython_model_closed self t y yp res (n : nat) :
  (2 <= n)%nat -> N self = Z.of_nat n ->
  (n <= length y)%nat -> (n <= length yp)%nat -> (n <= length res)%nat ->
  cython_model self t y yp res
  = Some (residual_rows (c_coefficients self) self (take n y) (take n yp)
          ++ drop n res, 0%Z).
Proof.
  intros Hn HN Hy Hyp Hres.
  unfold cython_model, cythonized_base_model_calculations, c_coefficients.
  rewrite HN.
  rewrite !(c_getitem_at0 y 0), !(c_getitem_at0 y 1), !(c_getitem_at0 yp 0),
    !(c_getitem_at0 y (Z.of_nat n - 1)), !(c_getitem_at0 y (Z.of_nat n - 2)),
    !(c_getitem_at0 yp (Z.of_nat n - 1)) by (unfold size; lia).
  cbn [mbind option_bind].
  set (aux1 := fdiv (D self) (vz self * h self)).
  set (inv := fdiv f1 (f1 + aux1)).
  set (aux2 := fdiv (D self) (h self * h self)).
  set (aux3 := fdiv (vz self) (f2 * h self)).
  replace (Z.to_nat (Z.of_nat n - 1)) with (n - 1)%nat by lia.
  replace (Z.to_nat (Z.of_nat n - 2)) with (n - 2)%nat by lia.
  change (Z.to_nat 0) with 0%nat. change (Z.to_nat 1) with 1%nat.
  rewrite c_setitem_Some by (unfold size; lia). cbn [mbind option_bind].
  replace (arange 1 (Z.of_nat n - 1)) with (Z.of_nat <$> seq 1 (n - 2))
    by (rewrite <- arange_seq; f_equal; lia).
  rewrite (c_for_write_rows (fun i =>
     aux2 * (at0 y (i + 1) - f2 * at0 y i + at0 y (i - 1))
     + (- aux3 * (at0 y (i + 1) - at0 y (i - 1)) + k self * at0 y i)
     - at0 yp i)).
  2:{ intros i r Hi Hr. rewrite length_insert in Hr.
      rewrite !c_getitem_at0 by (unfold size; lia). cbn [mbind option_bind].
      rewrite c_setitem_Some by (unfold size; lia).
      replace (Z.to_nat (Z.of_nat i + 1)) with (i + 1)%nat by lia.
      replace (Z.to_nat (Z.of_nat i - 1)) with (i - 1)%nat by lia.
      by rewrite Nat2Z.id. }
  cbn [mbind option_bind].
  rewrite c_setitem_Some
    by (unfold size; rewrite write_rows_length, length_insert; lia).
  cbn [mbind option_bind]. do 2 f_equal.
  replace (Z.to_nat (Z.of_nat n - 1)) with (n - 1)%nat by lia.
  apply list_eq. intros j.
  assert (length (residual_rows (aux1, inv, aux2, aux3) self
                    (take n y) (take n yp)) = n) as Hrows
    by (unfold residual_rows;
        rewrite length_fmap, length_seq, length_take; lia).
  destruct (decide (j < n)%nat) as [Hj|Hj].
  - rewrite lookup_app_l by lia.
    rewrite residual_rows_lookup by (rewrite length_take; lia).
    unfold residual_row. rewrite length_take.
    replace (n `min` length y)%nat with n by lia.
    destruct (decide (j = (n - 1)%nat)) as [->|Hlast].
    + rewrite list_lookup_insert_eq
        by (rewrite write_rows_length, length_insert; lia).
      rewrite decide_False by lia.
      by rewrite !at0_take by lia.
    + rewrite list_lookup_insert_ne by done.
      rewrite write_rows_lookup, length_insert.
      destruct (decide (j = 0%nat)) as [->|Hfirst].
      * rewrite decide_False by lia.
        rewrite list_lookup_insert_eq by lia.
        by rewrite !at0_take by lia.
      * rewrite decide_True by lia.
        by rewrite !at0_take by lia.
  - rewrite lookup_app_r by lia. rewrite Hrows, lookup_drop.
    rewrite list_lookup_insert_ne by lia.
    rewrite write_rows_lookup, length_insert.
    rewrite decide_False by lia.
    rewrite list_lookup_insert_ne by lia. f_equal. lia.
Qed.

Ltac option_inv H :=
  repeat (let x := fresh "x" in let Hx := fresh "Hx" in
          apply bind_Some in H as (x & Hx & H)).

(** What a defined run of the typed kernel says about its arguments. *)
Lemma cython_model_Some_inv self t y yp res R s :
  cython_model self t y yp res = Some (R, s) ->
  s = 0%Z /\ length R = length res
  /\ (2 <= N self)%Z /\ (N self <= size y)%Z /\ (N self <= size yp)%Z
  /\ (N self <= size res)%Z.
Proof.
  unfold cython_model. intros Hr.
  apply bind_Some in Hr as (R' & Hk & Hr). injection Hr as <- <-.
  unfold cythonized_base_model_calculations in Hk. option_inv Hk.
  repeat match goal with
         | Hg : c_getitem _ _ = Some _ |- _ => apply c_getitem_Some_range in Hg
         | Hs : c_setitem _ _ _ = Some _ |- _ =>
             apply c_setitem_Some_length in Hs as [? ?]
         end.
  match goal with
  | Hf : c_for _ _ _ = Some _ |- _ =>
      apply c_for_Some_length in Hf;
        [|intros i r r' Hb; option_inv Hb;
          by apply c_setitem_Some_length in Hb as [? _]]
  end.
  unfold size in *. repeat split; lia.
Qed.

(** X11: the typed Cython kernel stays inside its buffers exactly when
    [2 <= N] and each of [y], [yp] and [res] has at least N entries.  Then
    it returns status 0 and a residual of the buffer's length; in every
    other case, N = 1, N <= 0 and N beyond a buffer included, it reads or
    writes outside a buffer. *)
Theorem cython_model_defined_iff self t y yp res :
  (exists R, cython_model self t y yp res = Some (R, 0%Z)
             /\ length R = length res)
  <-> (2 <= N self)%Z /\ (N self <= size y)%Z /\ (N self <= size yp)%Z
      /\ (N self <= size res)%Z.
Proof.
  split.
  - intros (R & Hr & _). by apply cython_model_Some_inv in Hr as (_ & _ & ?).
  - intros (Hn & Hy & Hyp & Hres). unfold size in *.
    eexists. split.
    + apply (cython_model_closed self t y yp res (Z.to_nat (N self))); lia.
    + rewrite length_app, length_drop.
      unfold residual_rows. rewrite length_fmap, length_seq, length_take. lia.
Qed.

End CythonFacts.

(** ** More on the kernels: the numpy kernel on arrays longer than [par.N] *)

Section KernelLonger.
Context {A : Type} `{Scalar A}.
Local Open Scope py_scope.
Implicit Types (y yp res : list A) (par : pfr A).

Ltac coeff_step :=
  match goal with
  | |- mbind _ ?m = _ => destruct m; [reflexivity|]; cbn [mbind result_bind]
  end.

Ltac len m :=
  try trans m;
  repeat first
    [ apply zip_with_length_eq | apply fmap_length_eq
    | apply take_drop_length_eq; lia
    | symmetry; apply zip_with_length_eq | symmetry; apply fmap_length_eq
    | symmetry; apply take_drop_length_eq; lia
    | rewrite length_take, ?length_insert; lia
    | rewrite length_drop; lia
    | reflexivity ].

(** The slices of [model_pfr_np] run over the whole arrays, whatever
    [par.N] is: on arrays of length [m >= N] rows 1 to [m - 2] get the
    interior expression, row [N - 1] is then overwritten with the outlet
    expression, and row [m - 1] is written only if it is row [N - 1]. *)
Lemma model_pfr_np_longer t y yp par res (n m : nat) :
  (2 <= n <= m)%nat -> N par = Z.of_nat n ->
  length y = m -> length yp = m -> length res = m ->
  model_pfr_np t y yp par res
  = c ← coefficients par;
    mret (<[(n - 1)%nat :=
              residual_row c par (take n y) (take n yp) (n - 1)]>
            (take (m - 1) (residual_rows c par y yp) ++ drop (m - 1) res),
          0%Z).
Proof.
  intros Hn HN Hy Hyp Hres.
  unfold model_pfr_np, coefficients. rewrite HN.
  rewrite !(getitem_at0 y 0), !(getitem_at0 y 1), !(getitem_at0 yp 0),
    !(getitem_at0 y (Z.of_nat n - 1)), !(getitem_at0 y (Z.of_nat n - 2)),
    !(getitem_at0 yp (Z.of_nat n - 1)) by (unfold size; lia).
  do 6 coeff_step.
  rename a into aux1, a0 into inv, a2 into aux2, a4 into aux3.
  replace (Z.to_nat (Z.of_nat n - 1)) with (n - 1)%nat by lia.
  replace (Z.to_nat (Z.of_nat n - 2)) with (n - 2)%nat by lia.
  change (Z.to_nat 0) with 0%nat. change (Z.to_nat 1) with 1%nat.
  rewrite setitem_inr by (unfold size; lia). cbn [mbind result_bind].
  assert (slice y 2 None = drop 2 y) as ->
    by (apply (slice_from y 2); lia).
  assert (slice y 1 (Some (-1)%Z) = take (m - 2) (drop 1 y)) as ->
    by (etrans; [apply (slice_to_end y 1 1); lia|]; f_equal; lia).
  assert (slice y 0 (Some (-2)%Z) = take (m - 2) y) as ->
    by (etrans; [apply (slice_to_end y 0 2); lia|]; rewrite drop_0; f_equal; lia).
  assert (slice yp 1 (Some (-1)%Z) = take (m - 2) (drop 1 yp)) as ->
    by (etrans; [apply (slice_to_end yp 1 1); lia|]; f_equal; lia).
  repeat (rewrite broadcast_zip by len (m - 2)%nat; cbn [mbind result_bind]).
  match goal with
  | |- context [setslice _ _ _ ?v] =>
      set (mid := v);
      assert (length mid = (m - 2)%nat) as Hmid by (subst mid; len (m - 2)%nat)
  end.
  rewrite (setslice_inr _ _ 1 (-1))
    by (unfold size; rewrite ?length_insert; lia).
  cbn [mbind result_bind]. unfold size. rewrite length_insert, Hres.
  change (Z.to_nat 1) with 1%nat.
  replace (Z.to_nat (Z.of_nat m + -1)) with (m - 1)%nat by lia.
  match goal with
  | |- context [setitem ?r _ _] =>
      assert (length r = m) as Hlen
        by (rewrite !length_app, length_take, length_drop, length_insert; lia)
  end.
  rewrite setitem_inr by (unfold size; lia).
  cbn [mbind result_bind mret result_ret]. do 2 f_equal.
  replace (Z.to_nat (Z.of_nat n - 1)) with (n - 1)%nat by lia.
  assert (length (residual_rows (aux1, inv, aux2, aux3) par y yp) = m) as Hrows
    by (unfold residual_rows; rewrite length_fmap, length_seq; lia).
  apply list_eq. intros j.
  destruct (decide (j = (n - 1)%nat)) as [->|Hj].
  { rewrite list_lookup_insert_eq by lia.
    rewrite list_lookup_insert_eq
      by (rewrite length_app, length_take, length_drop, Hrows; lia).
    f_equal. unfold residual_row. rewrite length_take.
    replace (n `min` length y)%nat with n by lia.
    rewrite decide_False by lia. rewrite decide_True by done.
    by rewrite !at0_take by lia. }
  rewrite !list_lookup_insert_ne by done.
  destruct (decide (j = 0%nat)) as [->|Hfirst].
  { rewrite lookup_app_l by (rewrite length_take, length_insert; lia).
    rewrite lookup_take_lt by lia.
    rewrite list_lookup_insert_eq by lia.
    rewrite lookup_app_l by (rewrite length_take; lia).
    rewrite lookup_take_lt by lia.
    rewrite residual_rows_lookup by lia.
    unfold residual_row. by rewrite decide_True by done. }
  rewrite lookup_app_r by (rewrite length_take, length_insert; lia).
  rewrite length_take, length_insert, Hres.
  replace (1 `min` m)%nat with 1%nat by lia.
  destruct (decide (j < m - 1)%nat) as [Hin|Hout].
  - rewrite lookup_app_l by lia.
    rewrite lookup_app_l by (rewrite length_take; lia).
    rewrite lookup_take_lt by lia.
    rewrite residual_rows_lookup by lia.
    unfold residual_row. rewrite Hy.
    rewrite decide_False by done. rewrite decide_False by lia.
    subst mid.
    rewrite !lookup_zip_with, !list_lookup_fmap, !lookup_zip_with,
      !list_lookup_fmap, !lookup_take_lt, !lookup_drop by lia.
    rewrite (at0_lookup y (2 + (j - 1))), (at0_lookup y (1 + (j - 1))),
      (at0_lookup y (j - 1)), (at0_lookup yp (1 + (j - 1))) by lia.
    replace (2 + (j - 1))%nat with (j + 1)%nat by lia.
    replace (1 + (j - 1))%nat with j by lia.
    done.
  - rewrite lookup_app_r by lia.
    rewrite lookup_app_r by (rewrite length_take; lia).
    rewrite length_take, Hrows, Hmid, !lookup_drop.
    replace ((m - 1) `min` m)%nat with (m - 1)%nat by lia.
    rewrite list_lookup_insert_ne by lia. f_equal. lia.
Qed.

(** X13: on arrays longer than [par.N] the two Python kernels agree on
    the first N rows only.  With 2 <= N and [y], [yp], [res] of one length
    above N, when both return, rows 0 to N - 1 are equal; for a row j with
    N <= j < len(y) - 1 the loop kernel leaves [res[j]] as it was, while the
    numpy kernel overwrites it with the interior expression taken at j. *)
Theorem kernels_differ_beyond_N t y yp par res R s R' s' (j : nat) :
  (2 <= N par)%Z -> size yp = size y -> size res = size y ->
  (N par <= Z.of_nat j < size y - 1)%Z ->
  model_pfr_np t y yp par res = inr (R, s) ->
  model_pfr t y yp par res = inr (R', s') ->
  (forall i : nat, (Z.of_nat i < N par)%Z -> R !! i = R' !! i)
  /\ R' !! j = res !! j
  /\ exists aux1 inv aux2 aux3,
       coefficients par = inr (aux1, inv, aux2, aux3)
       /\ R !! j
          = Some (aux2 * (at0 y (j + 1) - f2 * at0 y j + at0 y (j - 1))
                  + (- aux3 * (at0 y (j + 1) - at0 y (j - 1))
                     + k par * at0 y j)
                  - at0 yp j).
Proof.
  intros Hn Hyp Hres Hj Hr Hr'. unfold size in *.
  set (n := Z.to_nat (N par)). set (m := length y).
  rewrite (model_pfr_np_longer t y yp par res n m) in Hr by lia.
  rewrite (model_pfr_prefix t y yp par res n) in Hr' by lia.
  destruct (coefficients par) as [e|[[[aux1 inv] aux2] aux3]] eqn:Hc; [done|].
  cbn [mbind result_bind mret result_ret] in Hr, Hr'.
  injection Hr as <- <-. injection Hr' as <- <-.
  set (c := (aux1, inv, aux2, aux3)).
  assert (length (residual_rows c par y yp) = m) as Hrows
    by (unfold residual_rows; rewrite length_fmap, length_seq; lia).
  assert (length (residual_rows c par (take n y) (take n yp)) = n) as Hrows'
    by (unfold residual_rows;
        rewrite length_fmap, length_seq, length_take; lia).
  split; [|split].
  - intros i Hi. rewrite (lookup_app_l _ (drop n res)) by lia.
    rewrite residual_rows_lookup by (rewrite length_take; lia).
    destruct (decide (i = (n - 1)%nat)) as [->|Hne].
    + by rewrite list_lookup_insert_eq
        by (rewrite length_app, length_take, length_drop, Hrows; lia).
    + rewrite list_lookup_insert_ne by done.
      rewrite lookup_app_l by (rewrite length_take; lia).
      rewrite lookup_take_lt by lia.
      rewrite residual_rows_lookup by lia. f_equal.
      unfold residual_row, c. rewrite length_take.
      replace (n `min` length y)%nat with n by lia. fold m.
      destruct (decide (i = 0%nat)) as [->|Hfirst].
      * by rewrite !at0_take by lia.
      * rewrite !decide_False by lia. by rewrite !at0_take by lia.
  - rewrite lookup_app_r by lia. rewrite Hrows', lookup_drop. f_equal. lia.
  - exists aux1, inv, aux2, aux3. split; [done|].
    rewrite list_lookup_insert_ne by lia.
    rewrite lookup_app_l by (rewrite length_take; lia).
    rewrite lookup_take_lt by lia.
    rewrite residual_rows_lookup by lia.
    unfold residual_row, c. fold m. by rewrite !decide_False by lia.
Qed.

(** X14: [model_pfr_np_no_share] hands back uninitialised memory when [y]
    is longer than [par.N].  Its residual is [np.empty(y.size)], the slice
    assignment fills rows 1 to len(y) - 2 and the two boundary assignments
    rows 0 and N - 1; so with 2 <= N < len(y) the last entry of the returned
    array is whatever the allocation held. *)
Theorem no_share_returns_uninitialised_entry (uninit : nat -> A)
    t y yp par R s :
  (2 <= N par < size y)%Z -> size yp = size y ->
  model_pfr_np_no_share uninit t y yp par = inr (R, s) ->
  R !! (length y - 1)%nat = Some (uninit (length y - 1)%nat).
Proof.
  intros Hn Hyp Hr. unfold size in *.
  set (n := Z.to_nat (N par)). set (m := length y).
  rewrite model_pfr_np_no_share_unfold in Hr.
  rewrite (model_pfr_np_longer t y yp par _ n m) in Hr;
    [|lia|lia|done|lia|unfold size; apply np_empty_length].
  destruct (coefficients par) as [e|c] eqn:Hc; [done|].
  cbn [mbind result_bind mret result_ret] in Hr. injection Hr as <- <-.
  assert (length (residual_rows c par y yp) = m) as Hrows
    by (unfold residual_rows; rewrite length_fmap, length_seq; lia).
  rewrite list_lookup_insert_ne by lia.
  rewrite lookup_app_r by (rewrite length_take; lia).
  rewrite length_take, Hrows, lookup_drop.
  unfold np_empty, size. rewrite list_lookup_fmap, Nat2Z.id.
  rewrite lookup_seq_lt by lia. cbn. do 2 f_equal. lia.
Qed.
End KernelLonger.

(** ** More on the kernels: shapes the numpy kernel refuses *)

Section KernelShapes.
Context {A : Type} `{Scalar A}.
Local Open Scope py_scope.
Implicit Types (y yp res : list A) (par : pfr A).

Ltac coeff_step :=
  match goal with
  | |- mbind _ ?m = _ => destruct m; [reflexivity|]; cbn [mbind result_bind]
  end.

Ltac len m :=
  try trans m;
  repeat first
    [ apply zip_with_length_eq | apply fmap_length_eq
    | apply take_drop_length_eq; lia
    | symmetry; apply zip_with_length_eq | symmetry; apply fmap_length_eq
    | symmetry; apply take_drop_length_eq; lia
    | rewrite length_take, ?length_insert; lia
    | rewrite length_drop; lia
    | reflexivity ].

Lemma broadcast_mismatch (op : A -> A -> A) (a b : list A) :
  length a <> length b -> length a <> 1%nat -> length b <> 1%nat ->
  broadcast op a b = inl ValueError.
Proof.
  intros Hab Ha Hb. unfold broadcast. rewrite decide_False by done.
  by destruct a as [|? [|? ?]], b as [|? [|? ?]].
Qed.

Lemma setslice_mismatch (a v : list A) :
  (2 <= length a)%nat -> length v <> (length a - 2)%nat ->
  length v <> 1%nat ->
  setslice a 1 (Some (-1)%Z) v = inl ValueError.
Proof.
  intros Ha Hv Hv1. unfold setslice, clip_bound, size. simpl.
  rewrite decide_False by lia.
  by destruct v as [|? [|? ?]].
Qed.

(** X15: the numpy kernel needs [yp] and [res] of the length of [y], also
    where [par.N] is smaller.  With 2 <= N <= len(y) and len(y) other than
    3, a [yp] of another length (at least 2 and not 3) or, with [yp]
    fitting, a [res] of another length (at least 2) makes [model_pfr_np]
    raise: the exception of the coefficient arithmetic if that raises, and
    [ValueError] from the shape mismatch otherwise. *)
Theorem model_pfr_np_shape_mismatch t y yp par res :
  (2 <= N par <= size y)%Z -> size y <> 3%Z ->
  ((2 <= size yp)%Z /\ size yp <> size y /\ size yp <> 3%Z
   /\ (1 <= size res)%Z)
  \/ (size yp = size y /\ (2 <= size res)%Z /\ size res <> size y) ->
  model_pfr_np t y yp par res = (_ ← coefficients par; raise ValueError).
Proof.
  intros Hn H3 Hcase. unfold size in *.
  set (n := Z.to_nat (N par)). set (m := length y).
  assert (N par = Z.of_nat n) as HN by lia.
  unfold model_pfr_np, coefficients. rewrite HN.
  rewrite !(getitem_at0 y 0), !(getitem_at0 y 1), !(getitem_at0 yp 0),
    !(getitem_at0 y (Z.of_nat n - 1)) by (unfold size; lia).
  do 6 coeff_step.
  rewrite setitem_inr by (unfold size; lia). cbn [mbind result_bind].
  assert (slice y 2 None = drop 2 y) as ->
    by (apply (slice_from y 2); lia).
  assert (slice y 1 (Some (-1)%Z) = take (m - 2) (drop 1 y)) as ->
    by (etrans; [apply (slice_to_end y 1 1); lia|]; f_equal; lia).
  assert (slice y 0 (Some (-2)%Z) = take (m - 2) y) as ->
    by (etrans; [apply (slice_to_end y 0 2); lia|]; rewrite drop_0; f_equal; lia).
  assert (slice yp 1 (Some (-1)%Z) = take (length yp - 2) (drop 1 yp)) as ->
    by (etrans; [apply (slice_to_end yp 1 1); lia|]; f_equal; lia).
  do 5 (rewrite broadcast_zip by len (m - 2)%nat; cbn [mbind result_bind]).
  match goal with
  | |- context [broadcast fsub ?v _] =>
      set (r := v);
      assert (length r = (m - 2)%nat) as Hr by (subst r; len (m - 2)%nat)
  end.
  assert (length (take (length yp - 2) (drop 1 yp)) = (length yp - 2)%nat)
    as Hd by (rewrite length_take, length_drop; lia).
  destruct Hcase as [(Hyp2 & Hne & Hyp3 & Hres)|(Heq & Hres & Hne)].
  - rewrite broadcast_mismatch by lia. done.
  - rewrite broadcast_zip by lia. cbn [mbind result_bind].
    rewrite setslice_mismatch; [done|rewrite length_insert; lia| |].
    + rewrite length_zip_with, length_insert. lia.
    + rewrite length_zip_with. lia.
Qed.
End KernelShapes.

(** ** The set-up: which parameter object each slot carries *)

Section BenchmarkObjects.
Context {A : Type} `{Scalar A}.

(** X16: whenever [setups_all(N)] returns, its three slots carry
    parameter objects of three classes: the argument list of slot 0 holds
    a [pfr] object at entry 3, that of slot 1 holds [None] there and comes
    with a [Pfr_Cython] object beside it, that of slot 2 holds a
    [Numba_PFR] object.  The [pfr] objects that the second and third call
    of [solver_setup_base] built are replaced in their lists and are not
    reachable from the result. *)
Theorem setups_all_parameter_objects n (σ : list (object A)) v σ' :
  setups_all n σ = inr (v, σ') ->
  exists base par0 pr_Cy cy_args numba_args numba_pfr dropped1 dropped2 : nat,
    v = VTuple [VRef base; VTuple [VRef pr_Cy; VRef cy_args];
                VRef numba_args]
    /\ par_entry σ' base = Some (VRef par0)
    /\ class_of σ' par0 = Some cls_pfr
    /\ par_entry σ' cy_args = Some VNone
    /\ class_of σ' pr_Cy = Some cls_Pfr_Cython
    /\ par_entry σ' numba_args = Some (VRef numba_pfr)
    /\ class_of σ' numba_pfr = Some cls_Numba_PFR
    /\ dropped1 <> dropped2
    /\ class_of σ' dropped1 = Some cls_pfr
    /\ class_of σ' dropped2 = Some cls_pfr
    /\ (dropped1 ∉ reach 4 σ' v) /\ (dropped2 ∉ reach 4 σ' v).
Proof.
  intros (p & _ & _ & -> & ->)%setups_all_inv.
  exists (length σ + 3)%nat, (length σ), (length σ + 4)%nat,
    (length σ + 8)%nat, (length σ + 13)%nat, (length σ + 9)%nat,
    (length σ + 5)%nat, (length σ + 10)%nat.
  destruct (reach_setup σ p) as (_ & _ & _ & Hreach). cbn zeta in Hreach.
  rewrite Hreach. unfold par_entry, class_of.
  rewrite lookup_setup_0, !lookup_setup, setup_objects_eq.
  cbn [lookup list_lookup].
  split; [done|]. do 6 (split; [done|]). split; [lia|]. do 2 (split; [done|]).
  split; intros Hin;
    repeat (apply elem_of_cons in Hin as [?|Hin]; [lia|]);
    by apply elem_of_nil in Hin.
Qed.
End BenchmarkObjects.

(** ** More on the kernels: [par.N = 1] *)

Section KernelSingleNode.
Context {A : Type} `{Scalar A}.
Local Open Scope py_scope.
Implicit Types (y yp res : list A) (par : pfr A).

Ltac coeff_step :=
  match goal with
  | |- mbind _ ?m = _ => destruct m; [reflexivity|]; cbn [mbind result_bind]
  end.

Lemma getitem_last (a : list A) :
  (1 <= length a)%nat -> getitem a (-1) = inr (at0 a (length a - 1)).
Proof.
  intros Ha. unfold getitem, wrap_index, size. cbn [Z.ltb Z.compare].
  destruct (Z.leb_spec 0 (-1 + Z.of_nat (length a))); [|lia].
  destruct (Z.ltb_spec (-1 + Z.of_nat (length a)) (Z.of_nat (length a)));
    [|lia].
  cbn [andb].
  replace (Z.to_nat (-1 + Z.of_nat (length a))) with (length a - 1)%nat by lia.
  by rewrite at0_lookup by lia.
Qed.

(** X17: the loop kernel does not reject [par.N = 1].  On a state of at
    least two entries it raises nothing but what the coefficient
    arithmetic raises, skips the loop, and writes row 0 twice: the value
    it leaves there is the outlet expression, in which [Ci[N - 2]] is
    [Ci[-1]], the last entry of the state.  Every other entry of the
    buffer is left as it was.  Of the coefficients [c], [c.1.2] is [aux2]
    and [c.2] is [aux3]. *)
Theorem model_pfr_single_node t y yp par res :
  N par = 1%Z -> (2 <= size y)%Z -> (1 <= size yp)%Z -> (1 <= size res)%Z ->
  model_pfr t y yp par res
  = c ← coefficients par;
    mret (<[0%nat := c.1.2 * (at0 y 0 - f2 * at0 y 0 + at0 y (length y - 1))
                     - c.2 * (at0 y 0 - at0 y (length y - 1))
                     + k par * at0 y 0 - at0 yp 0]> res, 0%Z).
Proof.
  intros HN Hy Hyp Hres. unfold size in *.
  unfold model_pfr, coefficients. rewrite HN.
  change (1 - 1)%Z with 0%Z. change (1 - 2)%Z with (-1)%Z.
  rewrite !(getitem_at0 y 0), !(getitem_at0 y 1), !(getitem_at0 yp 0)
    by (unfold size; lia).
  rewrite getitem_last by lia.
  do 6 coeff_step.
  change (Z.to_nat 0) with 0%nat.
  rewrite setitem_inr by (unfold size; lia). cbn [mbind result_bind].
  change (arange 1 0) with (@nil Z). cbn [for_ mbind result_bind mret result_ret].
  rewrite setitem_inr by (unfold size; rewrite length_insert; lia).
  cbn [mbind result_bind mret result_ret fst snd].
  change (Z.to_nat 0) with 0%nat. by rewrite list_insert_insert_eq.
Qed.
End KernelSingleNode.

(** ** The properties above on concrete inputs *)

Section KernelEvaluations.
Import Binary64.

Lemma kernel_keeps_buffer_length_witness :
  model_pfr 5%float [3; 2]%float [0; 0]%float
    (Build_pfr 0.5 1 1 1 0 1 2 0.5)%float [7; 7; 7]%float
  = inr ([-1; 5; 7]%float, 0)
  /\ length [-1; 5; 7]%float = length [7; 7; 7]%float.
Proof.
  split; [by vm_compute|].
  apply (kernel_keeps_buffer_length 5%float [3; 2]%float [0; 0]%float
           (Build_pfr 0.5 1 1 1 0 1 2 0.5)%float [7; 7; 7]%float
           [-1; 5; 7]%float 0).
  left. by vm_compute.
Defined.

Lemma kernel_return_implies_sizes_witness :
  model_pfr_np 5%float [3; 2]%float [0; 0]%float
    (Build_pfr 0.5 1 1 1 0 1 2 0.5)%float [7; 7]%float
  = inr ([-1; 5]%float, 0)
  /\ 2 <= size [3; 2]%float.
Proof.
  split; [by vm_compute|].
  destruct (kernel_return_implies_sizes 5%float [3; 2]%float [0; 0]%float
              (Build_pfr 0.5 1 1 1 0 1 2 0.5)%float [7; 7]%float
              [-1; 5]%float 0) as (Hy & _); [|exact Hy].
  right. by vm_compute.
Defined.

Lemma model_pfr_ignores_buffer_contents_witness :
  2 <= 4
  /\ model_pfr 5%float [1; 2; 4; 8]%float [0; 0; 0; 1]%float
       (Build_pfr 1 1 1 1 0 1 4 0.25)%float [7; 7; 7; 7]%float
     = model_pfr 5%float [1; 2; 4; 8]%float [0; 0; 0; 1]%float
         (Build_pfr 1 1 1 1 0 1 4 0.25)%float [nan; 0; infinity; 1]%float.
Proof.
  split; [lia|].
  apply (model_pfr_ignores_buffer_contents 5%float [1; 2; 4; 8]%float
           [0; 0; 0; 1]%float (Build_pfr 1 1 1 1 0 1 4 0.25)%float
           [7; 7; 7; 7]%float [nan; 0; infinity; 1]%float);
    reflexivity || (simpl; lia).
Defined.

Lemma residual_row_is_local_witness :
  exists R R' : list float,
    model_pfr 5%float [1; 2; 4; 8]%float [0; 0; 0; 1]%float
      (Build_pfr 1 1 1 1 0 1 4 0.25)%float [7; 7; 7; 7]%float = inr (R, 0)
    /\ model_pfr 6%float [1; 2; 4; 9]%float [3; 0; 3; 3]%float
         (Build_pfr 1 1 1 1 0 1 4 0.25)%float [0; 0; 0; 0]%float = inr (R', 0)
    /\ R !! 1%nat = R' !! 1%nat.
Proof.
  eexists _, _. split; [by vm_compute|]. split; [by vm_compute|].
  apply (residual_row_is_local 5%float 6%float
           [1; 2; 4; 8]%float [1; 2; 4; 9]%float
           [0; 0; 0; 1]%float [3; 0; 3; 3]%float
           (Build_pfr 1 1 1 1 0 1 4 0.25)%float
           [7; 7; 7; 7]%float [0; 0; 0; 0]%float _ _ 0 0 1%nat);
    try (reflexivity || (simpl; lia) || by vm_compute).
  intros [|[|[|i]]] Hi; reflexivity || lia.
Defined.

Lemma residual_is_rhs_minus_derivative_witness :
  2 <= 2
  /\ model_pfr 5%float [3; 2]%float [0; 0]%float
       (Build_pfr 0.5 1 1 1 0 1 2 0.5)%float [7; 7]%float
     = inr ([-1; 5]%float, 0)
  /\ exists F : list float,
       size F = 2
       /\ forall t' yp res, size yp = 2 -> size res = 2 ->
            model_pfr t' [3; 2]%float yp
              (Build_pfr 0.5 1 1 1 0 1 2 0.5)%float res
            = inr (zip_with PrimFloat.sub F yp, 0).
Proof.
  split; [lia|]. split; [by vm_compute|].
  refine (residual_is_rhs_minus_derivative 5%float [3; 2]%float [0; 0]%float
            (Build_pfr 0.5 1 1 1 0 1 2 0.5)%float [7; 7]%float
            [-1; 5]%float 0 _ _ _ _ _);
    reflexivity || (simpl; lia) || by vm_compute.
Defined.

Lemma model_pfr_works_on_first_N_entries_witness :
  2 <= 2
  /\ model_pfr 5%float [3; 2; 9]%float [0; 0; 9; 9]%float
       (Build_pfr 0.5 1 1 1 0 1 2 0.5)%float [7; 7; 7]%float
     = inr ([-1; 5; 7]%float, 0).
Proof.
  split; [lia|].
  rewrite (model_pfr_works_on_first_N_entries 5%float [3; 2; 9]%float
             [0; 0; 9; 9]%float (Build_pfr 0.5 1 1 1 0 1 2 0.5)%float
             [7; 7; 7]%float) by (unfold size; simpl; lia).
  by vm_compute.
Defined.
End KernelEvaluations.

Section MoreEvaluations.
Import Binary64.

Lemma cython_model_defined_iff_witness :
  exists R : list float,
    cython_model (Build_pfr 0.5 1 1 1 0 1 2 0.5)%float 5%float
      [3; 2]%float [0; 0]%float [7; 7; 7]%float = Some (R, 0)
    /\ length R = length [7; 7; 7]%float.
Proof.
  apply (cython_model_defined_iff (Build_pfr 0.5 1 1 1 0 1 2 0.5)%float
           5%float [3; 2]%float [0; 0]%float [7; 7; 7]%float).
  unfold size. simpl. lia.
Defined.

Lemma kernels_differ_beyond_N_witness :
  exists R R' : list float,
    model_pfr_np 5%float [3; 2; 9; 4]%float [0; 0; 0; 0]%float
      (Build_pfr 0.5 1 1 1 0 1 2 0.5)%float [7; 7; 7; 7]%float = inr (R, 0)
    /\ model_pfr 5%float [3; 2; 9; 4]%float [0; 0; 0; 0]%float
         (Build_pfr 0.5 1 1 1 0 1 2 0.5)%float [7; 7; 7; 7]%float
       = inr (R', 0)
    /\ R' !! 2%nat = [7; 7; 7; 7]%float !! 2%nat.
Proof.
  eexists _, _. split; [by vm_compute|]. split; [by vm_compute|].
  refine (proj1 (proj2 (kernels_differ_beyond_N 5%float [3; 2; 9; 4]%float
            [0; 0; 0; 0]%float (Build_pfr 0.5 1 1 1 0 1 2 0.5)%float
            [7; 7; 7; 7]%float _ 0 _ 0 2%nat _ _ _ _ _ _)));
    try (reflexivity || (unfold size; simpl; lia) || by vm_compute).
Defined.

Lemma no_share_returns_uninitialised_entry_witness :
  exists R : list float,
    model_pfr_np_no_share (fun _ => 42%float) 5%float [3; 2; 9; 4]%float
      [0; 0; 0; 0]%float (Build_pfr 0.5 1 1 1 0 1 2 0.5)%float = inr (R, 0)
    /\ R !! 3%nat = Some 42%float.
Proof.
  eexists. split; [by vm_compute|].
  refine (no_share_returns_uninitialised_entry (fun _ => 42%float) 5%float
            [3; 2; 9; 4]%float [0; 0; 0; 0]%float
            (Build_pfr 0.5 1 1 1 0 1 2 0.5)%float _ 0 _ _ _);
    reflexivity || (unfold size; simpl; lia) || by vm_compute.
Defined.

Lemma model_pfr_np_shape_mismatch_witness :
  (2 <= 2 <= 4)%Z
  /\ model_pfr 5%float [3; 2; 9; 4]%float [0; 0]%float
       (Build_pfr 0.5 1 1 1 0 1 2 0.5)%float [7; 7]%float
     = inr ([-1; 5]%float, 0)
  /\ model_pfr_np 5%float [3; 2; 9; 4]%float [0; 0]%float
       (Build_pfr 0.5 1 1 1 0 1 2 0.5)%float [7; 7]%float
     = inl ValueError.
Proof.
  split; [lia|]. split; [by vm_compute|].
  rewrite (model_pfr_np_shape_mismatch 5%float [3; 2; 9; 4]%float [0; 0]%float
             (Build_pfr 0.5 1 1 1 0 1 2 0.5)%float [7; 7]%float);
    [by vm_compute|unfold size; simpl; lia|unfold size; simpl; lia|].
  left. unfold size. simpl. repeat split; lia.
Defined.

Lemma setups_all_parameter_objects_witness :
  exists (v : value float) σ',
    setups_all 2 [] = inr (v, σ')
    /\ exists base par0 pr_Cy cy_args numba_args numba_pfr dropped1 dropped2
           : nat,
         v = VTuple [VRef base; VTuple [VRef pr_Cy; VRef cy_args];
                     VRef numba_args]
         /\ par_entry σ' base = Some (VRef par0)
         /\ class_of σ' par0 = Some cls_pfr
         /\ par_entry σ' cy_args = Some VNone
         /\ class_of σ' pr_Cy = Some cls_Pfr_Cython
         /\ par_entry σ' numba_args = Some (VRef numba_pfr)
         /\ class_of σ' numba_pfr = Some cls_Numba_PFR
         /\ dropped1 <> dropped2
         /\ class_of σ' dropped1 = Some cls_pfr
         /\ class_of σ' dropped2 = Some cls_pfr
         /\ (dropped1 ∉ reach 4 σ' v) /\ (dropped2 ∉ reach 4 σ' v).
Proof.
  eexists _, _. split; [by vm_compute|].
  apply (setups_all_parameter_objects 2 []). by vm_compute.
Defined.
Lemma model_pfr_single_node_witness :
  (2 <= 3)%Z
  /\ model_pfr 5%float [3; 2; 9]%float [0; 0; 0]%float
       (Build_pfr 0.5 1 1 1 0 1 1 0.5)%float [7; 7; 7]%float
     = inr ([21; 7; 7]%float, 0).
Proof.
  split; [lia|].
  rewrite (model_pfr_single_node 5%float [3; 2; 9]%float [0; 0; 0]%float
             (Build_pfr 0.5 1 1 1 0 1 1 0.5)%float [7; 7; 7]%float)
    by (reflexivity || (unfold size; simpl; lia)).
  by vm_compute.
Defined.
End MoreEvaluations.
